(** * Connector icon fetcher and namer: a shallow embedding

    Two Python scripts are modelled here.

    - [download_connector_svgs.py] fetches [201.svg], [202.svg], ... from a
      CDN until the first failed download.
    - [rename_connector_svgs.py] scans the icon directory, asks a search
      engine for a name for every [<digits>.svg] file, and renames the file
      to [<digits>_<slug>.svg].

    Python [str] values are lists of Unicode code points ([N]); [bytes]
    values are lists of byte values.  The directory is a finite map from
    file names to file contents.  Network and console effects are threaded
    through an explicit state, and an uncaught Python exception is an
    explicit outcome of a computation. *)

From Stdlib Require Import NArith ZArith Bool Lia String Ascii.
From Stdlib Require Import DecimalString DecimalN Sorted.
From stdpp Require Import gmap list.

Local Open Scope N_scope.

(** ** Text *)

Abbreviation char := N (only parsing).
Abbreviation str := (list N) (only parsing).
Abbreviation bytes := (list N) (only parsing).

(** An ASCII literal of the source, as a list of code points. *)
Definition lit (s : string) : str :=
  List.map N_of_ascii (list_ascii_of_string s).
Arguments lit : simpl never.

(** The parts of the Python runtime the scripts call and that depend on the
    Unicode character database or on the codec machinery. *)
Class Runtime := {
  (** [unicodedata.normalize("NFKD", s)] *)
  nfkd : str -> str;
  (** [s.lower()] *)
  str_lower : str -> str;
  (** the class [\d] of [re] on [str] patterns *)
  is_decimal : char -> bool;
  (** [int(s)] on a string of decimal digits *)
  int_of_digits : str -> N;
  (** the class [\s] of [re] on [str] patterns, also [str.isspace] *)
  is_space : char -> bool;
  (** literal comparison of [re] under [re.IGNORECASE]:
      [icase_eq p c] when pattern character [p] matches text character [c] *)
  icase_eq : char -> char -> bool;
  (** [open(path, "r", encoding="utf-8", errors="ignore").read()] on the
      bytes of a file *)
  read_text : bytes -> str;
  (** [b.decode("utf-8", errors="ignore")] *)
  decode_utf8_ignore : bytes -> str;
  (** [urllib.parse.quote_plus(s)] *)
  quote_plus : str -> str;
  (** [html.unescape(s)] *)
  html_unescape : str -> str
}.

Definition is_ascii (c : char) : bool := c <? 128.

Definition ascii_upper (c : char) : bool := (65 <=? c) && (c <=? 90).

Definition ascii_lower (c : char) : char :=
  if ascii_upper c then c + 32 else c.

(** [NFKD] leaves ASCII text alone. *)
Definition nfkd_fixes_ascii `{Runtime} : Prop :=
  forall s : str, forallb is_ascii s = true -> nfkd s = s.

(** On ASCII text [str.lower] maps [A-Z] to [a-z] and nothing else. *)
Definition lower_on_ascii `{Runtime} : Prop :=
  forall s : str, forallb is_ascii s = true ->
    str_lower s = List.map ascii_lower s.

(** [s.lstrip(chars)], [s.rstrip(chars)] and [s.strip(chars)], with the
    stripped characters given as a predicate. *)
Fixpoint lstrip (p : char -> bool) (s : str) : str :=
  match s with
  | [] => []
  | c :: s' => if p c then lstrip p s' else s
  end.

Fixpoint rstrip (p : char -> bool) (s : str) : str :=
  match s with
  | [] => []
  | c :: s' =>
      match rstrip p s' with
      | [] => if p c then [] else [c]
      | t => c :: t
      end
  end.

Definition strip (p : char -> bool) (s : str) : str := rstrip p (lstrip p s).

(** [re.sub(r"[...]+", repl, s)] for a character class [p]: every maximal
    run of characters of the class becomes one [repl].  [in_run] says that
    the previous character belonged to the class. *)
Fixpoint re_sub_runs (p : char -> bool) (repl : str) (in_run : bool) (s : str)
  : str :=
  match s with
  | [] => []
  | c :: s' =>
      if p c then
        if in_run then re_sub_runs p repl true s'
        else repl ++ re_sub_runs p repl true s'
      else c :: re_sub_runs p repl false s'
  end.

Definition re_sub_plus (p : char -> bool) (repl : str) (s : str) : str :=
  re_sub_runs p repl false s.

(** The class [[a-z0-9]]. *)
Definition is_slug_char (c : char) : bool :=
  ((48 <=? c) && (c <=? 57)) || ((97 <=? c) && (c <=? 122)).

Definition underscore : char := 95.

Definition is_underscore (c : char) : bool := c =? underscore.

(** ** rename_connector_svgs.py: pure helpers *)

Section Namer.
Context `{Runtime}.

(** [normalize_name], lines 52-58. *)
Definition normalize_name (raw_name : str) : str :=
  let normalized := nfkd raw_name in
  let normalized := List.filter is_ascii normalized in
  let normalized := str_lower normalized in
  let normalized :=
    re_sub_plus (fun c => negb (is_slug_char c)) [underscore] normalized in
  strip is_underscore (re_sub_plus is_underscore [underscore] normalized).

(** [STOP_PHRASES], lines 13-23.  The source has a set; it is only
    iterated by [any], so no order is observable. *)
Definition STOP_PHRASES : list str :=
  [ lit "pluggy"; lit "connector"; lit "connector icons";
    lit "connector-icons"; lit "svg"; lit "icon"; lit "logo";
    lit "vector"; lit "brand" ].

(** The character class between the two [\s] of line 63, as the source
    file has it: hyphen, vertical bar, colon, and the code points U+00E2,
    U+20AC and U+201D. *)
Definition is_separator (c : char) : bool :=
  (c =? 45) || (c =? 124) || (c =? 58)
  || (c =? 226) || (c =? 8364) || (c =? 8221).

(** Does [\s[class]\s] match at the very start of [s]? *)
Definition match_here (sep : char -> bool) (s : str) : bool :=
  match s with
  | a :: b :: c :: _ => is_space a && sep b && is_space c
  | _ => false
  end.

(** [re.split(r"\s[class]\s", title)[0]]: the text before the leftmost
    match, the whole title when there is none. *)
Fixpoint re_split_head (sep : char -> bool) (title : str) : str :=
  match title with
  | [] => []
  | a :: rest =>
      if match_here sep title then [] else a :: re_split_head sep rest
  end.

(** [needle in hay] on [str]. *)
Fixpoint starts_with (needle hay : str) : bool :=
  match needle, hay with
  | [], _ => true
  | _ :: _, [] => false
  | a :: needle', b :: hay' => (a =? b) && starts_with needle' hay'
  end.

Fixpoint str_in (needle hay : str) : bool :=
  starts_with needle hay
  || match hay with
     | [] => false
     | _ :: hay' => str_in needle hay'
     end.

(** Line 63: the candidate of one title. *)
Definition candidate_of (title : str) : str :=
  strip is_space (re_split_head is_separator title).

(** [pick_name_from_titles], lines 61-72. *)
Fixpoint pick_name_from_titles (titles : list str) : option str :=
  match titles with
  | [] => None
  | title :: titles' =>
      let candidate := candidate_of title in
      let lower := str_lower candidate in
      if existsb (fun phrase => str_in phrase lower) STOP_PHRASES
      then pick_name_from_titles titles'
      else if existsb is_decimal candidate
      then pick_name_from_titles titles'
      else if ((length candidate <? 3) || (60 <? length candidate))%nat
      then pick_name_from_titles titles'
      else Some candidate
  end.

(** [re.search] for a literal pattern: the text before and the text after
    its leftmost occurrence in [s].  [eq p c] says that pattern character
    [p] matches text character [c]. *)
Fixpoint literal_at (eq : char -> char -> bool) (pat s : str) : option str :=
  match pat, s with
  | [], _ => Some s
  | _ :: _, [] => None
  | p :: pat', c :: s' => if eq p c then literal_at eq pat' s' else None
  end.

Fixpoint re_find (eq : char -> char -> bool) (pat s : str)
  : option (str * str) :=
  match literal_at eq pat s with
  | Some rest => Some ([], rest)
  | None =>
      match s with
      | [] => None
      | c :: s' =>
          match re_find eq pat s' with
          | Some (before, rest) => Some (c :: before, rest)
          | None => None
          end
      end
  end.

(** [re.findall(open + "(.*?)" + close, s, re.IGNORECASE | re.DOTALL)]:
    the group runs to the first closing tag after the opening one, and the
    search goes on behind that closing tag.  Without a closing tag behind
    the leftmost opening tag no later start can match either.  [fuel]
    bounds the number of matches. *)
Fixpoint findall_tag (fuel : nat) (open close s : str) : list str :=
  match fuel with
  | O => []
  | S fuel' =>
      match re_find icase_eq open s with
      | None => []
      | Some (_, inside) =>
          match re_find icase_eq close inside with
          | None => []
          | Some (group, rest) => group :: findall_tag fuel' open close rest
          end
      end
  end.

(** [re.sub(r"\s+", " ", text).strip()] *)
Definition squeeze (text : str) : str :=
  strip is_space (re_sub_plus is_space (lit " ") text).

Definition nonempty (texts : list str) : list str :=
  List.filter (fun t => negb (bool_decide (t = []))) texts.

(** [extract_hints], lines 26-33. *)
Definition extract_hints (svg_content : str) : list str :=
  List.flat_map
    (fun pattern : str * str =>
       nonempty
         (List.map squeeze
            (findall_tag (S (length svg_content)) (fst pattern) (snd pattern)
               svg_content)))
    [ (lit "<title>", lit "</title>"); (lit "<desc>", lit "</desc>") ].

(** The literal [class="result__a"] of line 42. *)
Definition result_marker : str :=
  lit "class=" ++ [34] ++ lit "result__a" ++ [34].

(** After the marker: [[^>]*>(.*?)</a>], where [.] is not a newline. *)
Definition title_after_marker (after : str) : option (str * str) :=
  match re_find N.eqb [62] after with
  | None => None
  | Some (_, body) =>
      match re_find N.eqb (lit "</a>") body with
      | None => None
      | Some (group, rest) =>
          if existsb (N.eqb 10) group then None else Some (group, rest)
      end
  end.

(** [re.findall(r'class="result__a"[^>]*>(.*?)</a>', content)]: when the
    rest of the pattern fails behind a marker the search resumes one
    character further. *)
Fixpoint findall_results (fuel : nat) (content : str) : list str :=
  match fuel with
  | O => []
  | S fuel' =>
      match re_find N.eqb result_marker content with
      | None => []
      | Some (before, after) =>
          match title_after_marker after with
          | Some (group, rest) => group :: findall_results fuel' rest
          | None => findall_results fuel' (drop (S (length before)) content)
          end
      end
  end.

(** [re.sub(r"<.*?>", "", title)] *)
Fixpoint remove_tags (fuel : nat) (title : str) : str :=
  match fuel, title with
  | O, _ => title
  | _, [] => []
  | S fuel', c :: title' =>
      if c =? 60 then
        match re_find N.eqb [62] title' with
        | Some (inside, rest) =>
            if existsb (N.eqb 10) inside then c :: remove_tags fuel' title'
            else remove_tags fuel' rest
        | None => c :: remove_tags fuel' title'
        end
      else c :: remove_tags fuel' title'
  end.

(** Lines 42-49: from the decoded page to the cleaned titles. *)
Definition titles_of_page (content : str) : list str :=
  nonempty
    (List.map
       (fun title =>
          squeeze (html_unescape (remove_tags (length title) title)))
       (findall_results (S (length content)) content)).

(** [name.split(".")[0]] *)
Fixpoint before_dot (name : str) : str :=
  match name with
  | [] => []
  | c :: name' => if c =? 46 then [] else c :: before_dot name'
  end.

Definition str_eqb (a b : str) : bool :=
  starts_with a b && (length a =? length b)%nat.

(** [name] without its ending [suffix], when it ends so. *)
Definition remove_suffix (suffix name : str) : option str :=
  let k := (length name - length suffix)%nat in
  if str_eqb (drop k name) suffix then Some (take k name) else None.

(** [re.match(r"^\d+\.svg$", name)]: one or more decimal digits and then
    [.svg]; [$] also matches before a final newline. *)
Definition scan_match (name : str) : bool :=
  existsb
    (fun suffix =>
       match remove_suffix suffix name with
       | Some digits =>
           negb (bool_decide (digits = [])) && forallb is_decimal digits
       | None => false
       end)
    [ lit ".svg"; lit ".svg" ++ [10] ].

(** [sorted(names, key=...)]: a stable insertion sort. *)
Fixpoint insert_by_key (key : str -> N) (x : str) (l : list str) : list str :=
  match l with
  | [] => [x]
  | y :: l' =>
      if key x <=? key y then x :: l else y :: insert_by_key key x l'
  end.

Definition sorted_by_key (key : str -> N) (l : list str) : list str :=
  List.fold_right (insert_by_key key) [] l.

End Namer.

(** ** Integers as text *)

(** [str(n)], the text of [f"{n}"] for a non-negative integer. *)
Definition str_of_N (n : N) : str :=
  lit (NilEmpty.string_of_uint (N.to_uint n)).
Arguments str_of_N : simpl never.

(** ** The world: directory, network, console *)

(** The exceptions the scripts can meet. *)
Inductive exn : Type :=
| HTTPError
| URLError (reason : str)
| FileNotFoundError (path : str).

(** What [urllib.request.urlopen] does with one request: it returns a
    response with a status and a body, or raises. *)
Inductive reply : Type :=
| Responds (status : N) (body : bytes)
| Refuses (e : exn).

(** The network: the reply to a request depends on the URL and on how many
    requests went out before it. *)
Class Network := {
  reply_to : nat -> str -> reply
}.

(** The directory [connector-icons] with its files, the requests sent so
    far (oldest first), the lines printed so far, and the seconds slept. *)
Record world : Type := World {
  has_dir : bool;
  files : gmap (list N) (list N);
  requests : list (list N);
  console : list (list N);
  slept : nat
}.

Inductive outcome (A : Type) : Type :=
| Returned (a : A)
| Raised (e : exn).
Arguments Returned {A} a.
Arguments Raised {A} e.

(** A computation changes the world and returns or raises. *)
Definition M (A : Type) : Type := world -> world * outcome A.

#[global] Instance M_ret : MRet M := fun A a w => (w, Returned a).

#[global] Instance M_bind : MBind M := fun A B f m w =>
  match m w with
  | (w', Returned a) => f a w'
  | (w', Raised e) => (w', Raised e)
  end.

Definition raise {A : Type} (e : exn) : M A := fun w => (w, Raised e).

(** [try: body except ...: handler] *)
Definition catch {A : Type} (body : M A) (handler : exn -> M A) : M A :=
  fun w =>
    match body w with
    | (w', Returned a) => (w', Returned a)
    | (w', Raised e) => handler e w'
    end.

Definition log_line (line : str) (w : world) : world :=
  World (has_dir w) (files w) (requests w) (console w ++ [line]) (slept w).

Definition log_request (url : str) (w : world) : world :=
  World (has_dir w) (files w) (requests w ++ [url]) (console w) (slept w).

Definition add_sleep (seconds : nat) (w : world) : world :=
  World (has_dir w) (files w) (requests w) (console w) (slept w + seconds).

Definition set_files (fs : gmap (list N) (list N)) (w : world) : world :=
  World (has_dir w) fs (requests w) (console w) (slept w).

Definition print (line : str) : M unit := fun w =>
  (log_line line w, Returned tt).

Definition sleep (seconds : nat) : M unit := fun w =>
  (add_sleep seconds w, Returned tt).

(** [os.path.isdir(CONNECTOR_DIR)] *)
Definition isdir : M bool := fun w => (w, Returned (has_dir w)).

(** [os.makedirs(OUTPUT_DIR, exist_ok=True)] *)
Definition makedirs : M unit := fun w =>
  (World true (files w) (requests w) (console w) (slept w), Returned tt).

(** [os.listdir(CONNECTOR_DIR)], in the order of the map. *)
Definition listdir : M (list str) := fun w =>
  (w, Returned (List.map fst (map_to_list (files w)))).

(** [os.path.exists(os.path.join(CONNECTOR_DIR, name))] *)
Definition path_exists (name : str) : M bool := fun w =>
  (w, Returned (bool_decide (is_Some (files w !! name)))).

(** Reading the bytes of a file of the directory.  Every entry of the
    directory is taken to be a readable regular file: beyond a missing
    name, the errors of the operating system are not modelled, here and in
    [write_file], [rename] and [makedirs]. *)
Definition read_bytes (name : str) : M bytes := fun w =>
  match files w !! name with
  | Some content => (w, Returned content)
  | None => (w, Raised (FileNotFoundError name))
  end.

(** [open(path, "wb")] and [write]: creates or replaces the file. *)
Definition write_file (name : str) (content : bytes) : M unit := fun w =>
  if has_dir w then (set_files (<[name := content]> (files w)) w, Returned tt)
  else (w, Raised (FileNotFoundError name)).

(** [os.rename(old, new)] inside the directory. *)
Definition rename (old new : str) : M unit := fun w =>
  match files w !! old with
  | Some content =>
      (set_files (<[new := content]> (delete old (files w))) w, Returned tt)
  | None => (w, Raised (FileNotFoundError old))
  end.

(** [urllib.request.urlopen(url)] followed by [response.read()]. *)
Definition urlopen `{Network} (url : str) : M (N * bytes) := fun w =>
  match reply_to (length (requests w)) url with
  | Responds status body => (log_request url w, Returned (status, body))
  | Refuses e => (log_request url w, Raised e)
  end.

Definition truthy (s : str) : bool := negb (bool_decide (s = [])).

(** ** rename_connector_svgs.py: the effectful part *)

Module Rename.
Section Rename.
Context `{Runtime} `{Network}.

Definition SEARCH_URL (query : str) : str :=
  lit "https://duckduckgo.com/html/?q=" ++ query.

(** [fetch_search_results], lines 36-49.  Nothing here catches what
    [urlopen] raises.  The [User-Agent] header and the timeout of 20
    seconds are outside the model. *)
Definition fetch_search_results (query : str) : M (list str) :=
  let url := SEARCH_URL (quote_plus query) in
  response ← urlopen url;
  let content := decode_utf8_ignore (snd response) in
  mret (titles_of_page content).

(** Lines 76-78. *)
Definition queries_for (icon_id : str) (hints : list str) : list str :=
  [lit "pluggy connector " ++ icon_id ++ lit " svg bank"]
  ++ match hints with
     | [] => []
     | hint :: _ => [hint ++ lit " logo"]
     end.

(** Lines 82-86: the slug the titles of one query give, if any. *)
Definition slug_of_titles (titles : list str) : option str :=
  match pick_name_from_titles titles with
  | Some candidate =>
      if truthy candidate then
        let normalized := normalize_name candidate in
        if truthy normalized then Some normalized else None
      else None
  | None => None
  end.

(** The loop of lines 80-89. *)
Fixpoint try_queries (queries : list str) : M (option str) :=
  match queries with
  | [] => mret None
  | query :: queries' =>
      titles ← fetch_search_results query;
      match slug_of_titles titles with
      | Some normalized => mret (Some normalized)
      | None => sleep 1;; try_queries queries'
      end
  end.

(** [identify_institution], lines 75-89. *)
Definition identify_institution (icon_id : str) (hints : list str)
  : M (option str) :=
  try_queries (queries_for icon_id hints).

Definition target_name (icon_id institution : str) : str :=
  icon_id ++ lit "_" ++ institution ++ lit ".svg".

(** The three reports of the loop, lines 112, 118 and 122. *)
Definition msg_no_match (filename : str) : str :=
  lit "Skipped " ++ filename ++ lit ": no confident match.".

Definition msg_target_exists (filename new_name : str) : str :=
  lit "Skipped " ++ filename ++ lit ": target exists (" ++ new_name
  ++ lit ").".

Definition msg_renamed (filename new_name : str) : str :=
  lit "Renamed " ++ filename ++ lit " -> " ++ new_name.

(** The body of the loop of [main], lines 105-123. *)
Definition process_file (filename : str) : M unit :=
  let icon_id := before_dot filename in
  content ← read_bytes filename;
  let hints := extract_hints (read_text content) in
  institution ← identify_institution icon_id hints;
  match institution with
  | Some name =>
      if truthy name then
        let new_name := target_name icon_id name in
        taken ← path_exists new_name;
        if taken : bool then print (msg_target_exists filename new_name)
        else
          rename filename new_name;;
          print (msg_renamed filename new_name);;
          sleep 1
      else print (msg_no_match filename)
  | None => print (msg_no_match filename)
  end.

Fixpoint process_all (filenames : list str) : M unit :=
  match filenames with
  | [] => mret tt
  | filename :: filenames' =>
      process_file filename;; process_all filenames'
  end.

(** The files the loop of [main] visits, in its order (lines 97-104). *)
Definition worklist (names : list str) : list str :=
  sorted_by_key (fun name => int_of_digits (before_dot name))
    (List.filter scan_match names).

(** [main], lines 92-125; the value is the exit status. *)
Definition main : M N :=
  present ← isdir;
  if negb present then
    print (lit "Directory 'connector-icons' not found.");; mret 1
  else
    names ← listdir;
    let svg_files := List.filter scan_match names in
    match svg_files with
    | [] => print (lit "No SVG files found to rename.");; mret 0
    | _ :: _ => process_all (worklist names);; mret 0
    end.

End Rename.
End Rename.

(** [str(exc)] for a [URLError]: [<urlopen error REASON>]. *)
Definition str_of_URLError (reason : str) : str :=
  lit "<urlopen error " ++ reason ++ lit ">".

(** ** download_connector_svgs.py *)

Module Download.
Section Download.
Context `{Network}.

Definition BASE_URL (id : N) : str :=
  lit "https://cdn.pluggy.ai/assets/connector-icons/" ++ str_of_N id
  ++ lit ".svg".

Definition output_name (icon_id : N) : str := str_of_N icon_id ++ lit ".svg".

(** [download_svg], lines 10-27; the directory is [OUTPUT_DIR].  The value
    of the guarded block is the body that was read, or [None] where the
    source returns [False] from inside it. *)
Definition download_svg (icon_id : N) : M bool :=
  let url := BASE_URL icon_id in
  let output_path := output_name icon_id in
  fetched ← catch
    (response ← urlopen url;
     if negb (fst response =? 200) then mret None
     else mret (Some (snd response)))
    (fun e =>
       match e with
       | HTTPError => mret None
       | URLError reason =>
           print (lit "Network error while fetching " ++ url ++ lit ": "
                  ++ str_of_URLError reason);;
           mret None
       | _ => raise e
       end);
  match fetched with
  | None => mret false
  | Some content => write_file output_path content;; mret true
  end.

(** The loop of [main], lines 33-40.  [fuel] bounds the number of rounds;
    [None] says that the loop is still running when the fuel is spent. *)
Fixpoint download_from (fuel : nat) (icon_id : N) : M (option unit) :=
  match fuel with
  | O => mret None
  | S fuel' =>
      success ← download_svg icon_id;
      if negb success then
        print (lit "Stopped on id " ++ str_of_N icon_id
               ++ lit " (download failed).");;
        mret (Some tt)
      else
        print (lit "Downloaded " ++ str_of_N icon_id ++ lit ".svg");;
        download_from fuel' (icon_id + 1)
  end.

(** [main], lines 30-42; the value is the exit status. *)
Definition main (fuel : nat) : M (option N) :=
  makedirs;;
  finished ← download_from fuel 201;
  match finished with
  | Some _ => mret (Some 0)
  | None => mret None
  end.

End Download.
End Download.

(** ** Regular expressions of the specification *)

Inductive regex : Type :=
| Class_ (p : char -> bool)
| Seq (r1 r2 : regex)
| Star (r : regex).

Definition Plus (r : regex) : regex := Seq r (Star r).

Inductive matches : regex -> str -> Prop :=
| M_class p c : p c = true -> matches (Class_ p) [c]
| M_seq r1 r2 s1 s2 :
    matches r1 s1 -> matches r2 s2 -> matches (Seq r1 r2) (s1 ++ s2)
| M_star_nil r : matches (Star r) []
| M_star_more r s1 s2 :
    matches r s1 -> matches (Star r) s2 -> matches (Star r) (s1 ++ s2).

(** [[a-z0-9]+(_[a-z0-9]+)*] *)
Definition slug_regex : regex :=
  Seq (Plus (Class_ is_slug_char))
      (Star (Seq (Class_ is_underscore) (Plus (Class_ is_slug_char)))).

(** A deterministic acceptor for [slug_regex]: [fresh] holds at the start
    and right after an underscore, where a slug character is required. *)
Fixpoint slug_accept (fresh : bool) (s : str) : bool :=
  match s with
  | [] => negb fresh
  | c :: s' =>
      if is_underscore c then negb fresh && slug_accept true s'
      else is_slug_char c && slug_accept false s'
  end.

Definition is_slug (s : str) : bool := slug_accept true s.

(** Slug characters and underscores only, no underscore after an underscore;
    [prev] says that the previous character was an underscore. *)
Fixpoint tidy (prev : bool) (s : str) : bool :=
  match s with
  | [] => true
  | c :: s' =>
      if is_underscore c then negb prev && tidy true s'
      else is_slug_char c && tidy false s'
  end.

(** ** Replies and reports, as the specification words them *)

(** The replies that make [download_svg] fail: a status other than 200, an
    HTTP error, a network error. *)
Definition failed_reply (r : reply) : bool :=
  match r with
  | Responds status _ => negb (status =? 200)
  | Refuses HTTPError => true
  | Refuses (URLError _) => true
  | Refuses (FileNotFoundError _) => false
  end.

(** The URL a search query is sent to. *)
Definition search_url `{Runtime} (query : str) : str :=
  Rename.SEARCH_URL (quote_plus query).

(** What a query yields when it goes out as request number [sent]: a slug,
    no slug, or the exception of the transport. *)
Definition query_result `{Runtime} `{Network} (sent : nat) (query : str)
  : outcome (option str) :=
  match reply_to sent (search_url query) with
  | Responds _ body =>
      Returned
        (Rename.slug_of_titles (titles_of_page (decode_utf8_ignore body)))
  | Refuses e => Raised e
  end.

(** The effects of trying [queries] in a world [w], and the value, in
    terms of what each query yields. *)
Definition tried_in_order `{Runtime} `{Network} (queries : list str) (w w' : world)
    (result : outcome (option str)) : Prop :=
  let sent := length (requests w) in
  files w' = files w /\ has_dir w' = has_dir w /\ console w' = console w /\
  match result with
  | Returned None =>
      requests w' = requests w ++ List.map search_url queries /\
      slept w' = (slept w + length queries)%nat /\
      forall i q, queries !! i = Some q ->
        query_result (sent + i) q = Returned None
  | _ =>
      exists earlier query later,
        queries = earlier ++ query :: later /\
        requests w'
        = requests w ++ List.map search_url (earlier ++ [query]) /\
        slept w' = (slept w + length earlier)%nat /\
        (forall i q, earlier !! i = Some q ->
           query_result (sent + i) q = Returned None) /\
        query_result (sent + length earlier) query = result /\
        match result with
        | Returned (Some slug) => slug <> [] /\ is_slug slug = true
        | _ => True
        end
  end.

(** The names [os.listdir] gives in a world. *)
Definition names_of (w : world) : list str :=
  List.map fst (map_to_list (files w)).

(** The file at [name] is where it was, or it carries the post-naming
    form of [name] with some non-empty slug. *)
Definition kept_or_named (name name' : str) : Prop :=
  name' = name \/
  exists slug, slug <> [] /\ name' = Rename.target_name (before_dot name) slug.


(** The last request of [w] was refused with [e]. *)
Definition refused_last `{Network} (w : world) (e : exn) : Prop :=
  exists earlier url,
    requests w = earlier ++ [url] /\ reply_to (length earlier) url = Refuses e.




(** Identifiers [start], [start + 1], ..., [start + count - 1]. *)
Definition ids_from (start : N) (count : nat) : list N :=
  List.map (fun i => start + N.of_nat i) (seq 0 count).

(** ** The candidate selector, as the specification words it *)

Section SelectorSpec.
Context `{Runtime}.

(** [title] has a separator of class [sep], flanked by whitespace, right
    after the prefix [pre]. *)
Definition sep_at (sep : char -> bool) (pre title : str) : Prop :=
  exists w1 s w2 post,
    title = pre ++ w1 :: s :: w2 :: post /\
    is_space w1 = true /\ sep s = true /\ is_space w2 = true.

Definition first_sep_at (sep : char -> bool) (pre title : str) : Prop :=
  sep_at sep pre title /\
  forall pre', sep_at sep pre' title -> (length pre <= length pre')%nat.

(** Is there a separator anywhere in [title]? *)
Fixpoint has_sep (sep : char -> bool) (title : str) : bool :=
  match_here sep title
  || match title with
     | [] => false
     | _ :: rest => has_sep sep rest
     end.

(** Hyphen, colon, em-dash: the separators the specification names. *)
Definition named_separator (c : char) : bool :=
  (c =? 45) || (c =? 58) || (c =? 8212).

(** What the specification says about one title. *)
Definition title_split_as_specified (title : str) : Prop :=
  (forall pre, first_sep_at named_separator pre title ->
     candidate_of title = pre) /\
  ((forall pre, ~ sep_at named_separator pre title) ->
     candidate_of title = title).

(** Hyphen, vertical bar, colon. *)
Definition plain_separator (c : char) : bool :=
  (c =? 45) || (c =? 124) || (c =? 58).

(** The em-dash and the three code points its UTF-8 bytes give when they
    are read as Windows-1252. *)
Definition dash_or_remnant (c : char) : bool :=
  (c =? 8212) || (c =? 226) || (c =? 8364) || (c =? 8221).

(** [needle] occurs in [hay]. *)
Definition occurs_in (needle hay : str) : Prop :=
  exists pre post, hay = pre ++ needle ++ post.


End SelectorSpec.

(** ** A small runtime for the concrete examples

    Exact on ASCII text (without carriage returns in files and without
    character references in pages); beyond ASCII it knows the Latin-1
    letters that occur in the examples. *)

Definition hex_digit (d : N) : char := if d <? 10 then 48 + d else 55 + d.

Definition percent_byte (b : N) : str :=
  [37; hex_digit (b / 16); hex_digit (b mod 16)].

Definition utf8_bytes (c : char) : bytes :=
  if c <? 128 then [c]
  else if c <? 2048 then [192 + c / 64; 128 + c mod 64]
  else if c <? 65536 then
    [224 + c / 4096; 128 + (c / 64) mod 64; 128 + c mod 64]
  else
    [240 + c / 262144; 128 + (c / 4096) mod 64; 128 + (c / 64) mod 64;
     128 + c mod 64].

Definition sample_quote_char (c : char) : str :=
  if ((48 <=? c) && (c <=? 57)) || ((65 <=? c) && (c <=? 90))
     || ((97 <=? c) && (c <=? 122))
     || (c =? 95) || (c =? 46) || (c =? 45) || (c =? 126)
  then [c]
  else if c =? 32 then [43]
  else List.flat_map percent_byte (utf8_bytes c).

Definition sample_decompose (c : char) : str :=
  match c with
  | 225%N => [97; 769]   (* a acute *)
  | 227%N => [97; 771]   (* a tilde *)
  | 231%N => [99; 807]   (* c cedilla *)
  | 233%N => [101; 769]  (* e acute *)
  | 237%N => [105; 769]  (* i acute *)
  | 243%N => [111; 769]  (* o acute *)
  | 250%N => [117; 769]  (* u acute *)
  | _ => [c]
  end.

Definition sample_lower_char (c : char) : char :=
  if ascii_upper c then c + 32
  else if (192 <=? c) && (c <=? 222) && negb (c =? 215) then c + 32
  else c.

Definition sample_is_digit (c : char) : bool := (48 <=? c) && (c <=? 57).

Definition sample_is_space (c : char) : bool :=
  ((9 <=? c) && (c <=? 13)) || ((28 <=? c) && (c <=? 32))
  || (c =? 133) || (c =? 160).

Definition sample_runtime : Runtime := {|
  nfkd := fun s => List.flat_map sample_decompose s;
  str_lower := fun s => List.map sample_lower_char s;
  is_decimal := sample_is_digit;
  int_of_digits := fun s => List.fold_left (fun acc c => 10 * acc + (c - 48)) s 0;
  is_space := sample_is_space;
  icase_eq := fun p c => ascii_lower p =? ascii_lower c;
  read_text := fun b => List.filter is_ascii b;
  decode_utf8_ignore := fun b => List.filter is_ascii b;
  quote_plus := fun s => List.flat_map sample_quote_char s;
  html_unescape := fun s => s
|}.

(** A CDN that has the icons 201 to 205 and answers "not found" after
    them. *)
Definition cdn_five : Network := {|
  reply_to := fun sent url =>
    if (sent <? 5)%nat then Responds 200 (lit "<svg/>" ++ [N.of_nat sent])
    else Refuses HTTPError
|}.

Definition empty_world : world := World false ∅ [] [] 0.

(** A search engine that answers every query with the same two results. *)
Definition nubank_page : bytes :=
  lit "<a class=" ++ [34] ++ lit "result__a" ++ [34]
  ++ lit " href=x>Nubank - Wikipedia</a> "
  ++ lit "<a class=" ++ [34] ++ lit "result__a" ++ [34]
  ++ lit " href=y>Nu Pagamentos connector icon</a>".

Definition search_nubank : Network := {|
  reply_to := fun _ _ => Responds 200 nubank_page
|}.

(** A search engine whose first request times out and which answers
    every later one. *)
Definition search_first_down : Network := {|
  reply_to := fun sent _ =>
    match sent with
    | O => Refuses (URLError (lit "timed out"))
    | S _ => Responds 200 nubank_page
    end
|}.

Definition nubank_svg : bytes := lit "<svg><title>Nubank</title></svg>".

(** [201.svg] next to an older [201_nubank.svg]. *)
Definition collision_world : world :=
  World true
    (<[lit "201.svg" := nubank_svg]>
       (<[lit "201_nubank.svg" := lit "<svg/>"]> ∅))
    [] [] 0.

(** [201.svg] and [202.svg], not yet named. *)
Definition two_icons_world : world :=
  World true
    (<[lit "201.svg" := nubank_svg]> (<[lit "202.svg" := lit "<svg/>"]> ∅))
    [] [] 0.

(** ** Clean text *)

Section CleanText.
Context `{Runtime}.

(** Whitespace only as the space character and never twice in a row;
    [prev] says that the previous character was whitespace. *)
Fixpoint spaced (prev : bool) (s : str) : bool :=
  match s with
  | [] => true
  | c :: s' =>
      if is_space c then (c =? 32) && negb prev && spaced true s'
      else spaced false s'
  end.

(** The same, and no whitespace at the end; with [prev] at the start this
    also forbids whitespace at the start and the empty text. *)
Fixpoint spaced_to_end (prev : bool) (s : str) : bool :=
  match s with
  | [] => negb prev
  | c :: s' =>
      if is_space c then (c =? 32) && negb prev && spaced_to_end true s'
      else spaced_to_end false s'
  end.

(** A text that is not empty, neither starts nor ends with whitespace, and
    has no whitespace but single spaces between other characters. *)
Definition clean_text (s : str) : Prop :=
  s <> [] /\
  (forall c rest, s = c :: rest -> is_space c = false) /\
  (forall front c, s = front ++ [c] -> is_space c = false) /\
  (forall front c back, s = front ++ c :: back -> is_space c = true ->
     c = 32) /\
  (forall front c d back, s = front ++ c :: d :: back ->
     is_space c = true -> is_space d = false).

End CleanText.

(** A search engine that finds nothing. *)
Definition search_nothing : Network := {|
  reply_to := fun _ _ => Responds 200 (lit "<html><body>No results.</body></html>")
|}.

(** ** The order of the batch *)

(** The number the driver sorts a file name by, line 104. *)
Definition icon_key `{Runtime} (name : str) : N :=
  int_of_digits (before_dot name).

(** The characters [0] to [9] belong to [\d]. *)
Definition ascii_digits_decimal `{Runtime} : Prop :=
  forall c : char, 48 <= c <= 57 -> is_decimal c = true.

(** [int(str(n)) == n] for a non-negative integer. *)
Definition int_inverts_str `{Runtime} : Prop :=
  forall n : N, int_of_digits (str_of_N n) = n.

(** An empty directory that exists. *)
Definition fresh_dir_world : world := World true ∅ [] [] 0.

(** The stop phrases without [connector icons] and [connector-icons]. *)
Definition CORE_STOP_PHRASES : list str :=
  [ lit "pluggy"; lit "connector"; lit "svg"; lit "icon"; lit "logo";
    lit "vector"; lit "brand" ].

(** ** The orchestrator, as the specification words it *)

(** What the search client returns for a query that goes out as request
    number [sent]: the titles of the page, or the exception of the
    transport. *)
Definition query_titles `{Runtime} `{Network} (sent : nat) (query : str)
  : outcome (list str) :=
  match reply_to sent (search_url query) with
  | Responds _ body => Returned (titles_of_page (decode_utf8_ignore body))
  | Refuses e => Raised e
  end.

(** The titles give the slug: the candidate selector has a winner, and the
    slug is the normal form of the winner and is not empty. *)
Definition gives_slug `{Runtime} (titles : list str) (slug : str) : Prop :=
  exists candidate,
    pick_name_from_titles titles = Some candidate /\
    normalize_name candidate = slug /\ slug <> [].

(** The titles give no slug: the candidate selector has no winner, or the
    normal form of its winner is empty. *)
Definition gives_no_slug `{Runtime} (titles : list str) : Prop :=
  pick_name_from_titles titles = None \/
  exists candidate,
    pick_name_from_titles titles = Some candidate /\
    normalize_name candidate = [].

(** The queries [qs], sent from request number [sent] on, all got titles
    that give no slug. *)
Definition all_without_slug `{Runtime} `{Network} (sent : nat)
    (qs : list str) : Prop :=
  forall i q, qs !! i = Some q ->
    exists titles,
      query_titles (sent + i) q = Returned titles /\ gives_no_slug titles.

(** The run of the orchestrator over [queries] from the world [w]: what
    went out, what it cost, and what came back. *)
Definition identified_in_order `{Runtime} `{Network} (queries : list str)
    (w w' : world) (result : outcome (option str)) : Prop :=
  let sent := length (requests w) in
  files w' = files w /\ has_dir w' = has_dir w /\ console w' = console w /\
  match result with
  | Returned None =>
      requests w' = requests w ++ List.map search_url queries /\
      slept w' = (slept w + length queries)%nat /\
      all_without_slug sent queries
  | Returned (Some slug) =>
      exists earlier query later titles,
        queries = earlier ++ query :: later /\
        requests w'
        = requests w ++ List.map search_url (earlier ++ [query]) /\
        slept w' = (slept w + length earlier)%nat /\
        all_without_slug sent earlier /\
        query_titles (sent + length earlier) query = Returned titles /\
        gives_slug titles slug
  | Raised e =>
      exists earlier query later,
        queries = earlier ++ query :: later /\
        requests w'
        = requests w ++ List.map search_url (earlier ++ [query]) /\
        slept w' = (slept w + length earlier)%nat /\
        all_without_slug sent earlier /\
        query_titles (sent + length earlier) query = Raised e
  end.



(** * Properties *)

(** Boolean comparisons on code points, turned into arithmetic. *)
Ltac numeric :=
  repeat match goal with
  | H : _ && _ = true |- _ => apply andb_prop in H; destruct H
  | H : _ || _ = true |- _ => apply orb_prop in H; destruct H
  | H : _ && _ = false |- _ => apply andb_false_iff in H; destruct H
  | H : _ || _ = false |- _ => apply orb_false_iff in H; destruct H
  | H : negb _ = true |- _ => apply negb_true_iff in H
  | H : negb _ = false |- _ => apply negb_false_iff in H
  | H : (_ <=? _) = true |- _ => apply N.leb_le in H
  | H : (_ <=? _) = false |- _ => apply N.leb_gt in H
  | H : (_ <? _) = true |- _ => apply N.ltb_lt in H
  | H : (_ <? _) = false |- _ => apply N.ltb_ge in H
  | H : (_ =? _) = true |- _ => apply N.eqb_eq in H
  | H : (_ =? _) = false |- _ => apply N.eqb_neq in H
  end;
  try lia.

(** ** Normalisation *)

Lemma slug_char_not_underscore c :
  is_slug_char c = true -> is_underscore c = false.
Proof.
  unfold is_slug_char, is_underscore, underscore. intros Hc.
  apply N.eqb_neq. intros ->. vm_compute in Hc. discriminate.
Qed.

Lemma is_underscore_eq c : is_underscore c = true -> c = underscore.
Proof. unfold is_underscore. apply N.eqb_eq. Qed.

Lemma sub_nonslug_tidy b s :
  tidy b (re_sub_runs (fun c => negb (is_slug_char c)) [underscore] b s) = true.
Proof.
  revert b. induction s as [|c s IH]; intros b; simpl; [reflexivity|].
  destruct (is_slug_char c) eqn:Ec; simpl.
  - rewrite (slug_char_not_underscore c Ec), Ec. apply IH.
  - destruct b; simpl; [apply IH|].
    change (is_underscore underscore) with true. simpl. apply IH.
Qed.

Lemma sub_underscore_tidy b s :
  tidy b s = true -> re_sub_runs is_underscore [underscore] b s = s.
Proof.
  revert b. induction s as [|c s IH]; intros b; simpl; [reflexivity|].
  destruct (is_underscore c) eqn:Ec.
  - intros [Hb Hs]%andb_prop. destruct b; [discriminate|].
    simpl. rewrite (IH true Hs), (is_underscore_eq c Ec). reflexivity.
  - intros [_ Hs]%andb_prop. rewrite (IH false Hs). reflexivity.
Qed.

Lemma lstrip_tidy b s :
  tidy b s = true -> tidy true (lstrip is_underscore s) = true.
Proof.
  revert b. induction s as [|c s IH]; intros b; simpl; [reflexivity|].
  destruct (is_underscore c) eqn:Ec.
  - intros [_ Hs]%andb_prop. apply (IH true Hs).
  - intros Hs. simpl. rewrite Ec. exact Hs.
Qed.

Lemma rstrip_tidy b s :
  tidy b s = true ->
  rstrip is_underscore s = [] \/ slug_accept b (rstrip is_underscore s) = true.
Proof.
  revert b. induction s as [|c s IH]; intros b; simpl; [left; reflexivity|].
  destruct (is_underscore c) eqn:Ec.
  - intros [Hb Hs]%andb_prop.
    destruct (IH true Hs) as [->|Hacc]; [left; reflexivity|].
    destruct (rstrip is_underscore s) as [|d t] eqn:Er; [left; reflexivity|].
    right. change (slug_accept b (c :: d :: t))
      with (if is_underscore c then negb b && slug_accept true (d :: t)
            else is_slug_char c && slug_accept false (d :: t)).
    rewrite Ec, Hb, Hacc. reflexivity.
  - intros [Hc Hs]%andb_prop. right.
    destruct (IH false Hs) as [->|Hacc].
    + simpl. rewrite Ec, Hc. reflexivity.
    + destruct (rstrip is_underscore s) as [|d t] eqn:Er.
      * simpl. rewrite Ec, Hc. reflexivity.
      * change (slug_accept b (c :: d :: t))
          with (if is_underscore c then negb b && slug_accept true (d :: t)
                else is_slug_char c && slug_accept false (d :: t)).
        rewrite Ec, Hc, Hacc. reflexivity.
Qed.

Lemma normalize_name_shape `{Runtime} (x : str) :
  normalize_name x = [] \/ is_slug (normalize_name x) = true.
Proof.
  unfold normalize_name, re_sub_plus, strip, is_slug.
  set (t := re_sub_runs (fun c => negb (is_slug_char c)) [underscore] false _).
  assert (Ht : tidy false t = true) by apply sub_nonslug_tidy.
  rewrite (sub_underscore_tidy false t Ht).
  apply rstrip_tidy, (lstrip_tidy false), Ht.
Qed.

(** The acceptor is sound for the regular expression. *)
Lemma slug_accept_matches s :
  (slug_accept false s = true ->
     matches (Seq (Star (Class_ is_slug_char))
                  (Star (Seq (Class_ is_underscore)
                             (Plus (Class_ is_slug_char))))) s) /\
  (slug_accept true s = true -> matches slug_regex s).
Proof.
  induction s as [|c s [IHf IHt]]; simpl.
  - split; [intros _|discriminate].
    apply (M_seq _ _ [] []); constructor.
  - destruct (is_underscore c) eqn:Ec; simpl.
    + split; [|discriminate]. intros Hs.
      specialize (IHt Hs). unfold slug_regex in IHt.
      inversion IHt as [| r1 r2 w r Hw Hr | |]; subst.
      apply (M_seq _ _ [] (c :: w ++ r)); [constructor|].
      apply (M_star_more _ (c :: w) r); [|exact Hr].
      apply (M_seq _ _ [c] w); [constructor; exact Ec | exact Hw].
    + split; intros [Hc Hs]%andb_prop; specialize (IHf Hs);
        inversion IHf as [| r1 r2 w r Hw Hr | |]; subst;
        apply (M_seq _ _ (c :: w) r); try exact Hr.
      * apply (M_star_more _ [c] w); [constructor; exact Hc | exact Hw].
      * apply (M_seq _ _ [c] w); [constructor; exact Hc | exact Hw].
Qed.

Lemma tidy_weaken b s : tidy b s = true -> tidy false s = true.
Proof.
  destruct s as [|c s]; simpl; [reflexivity|].
  destruct (is_underscore c); [|tauto].
  intros [_ Hs]%andb_prop. exact Hs.
Qed.

Lemma slug_accept_tidy b s : slug_accept b s = true -> tidy b s = true.
Proof.
  revert b. induction s as [|c s IH]; intros b; simpl; [reflexivity|].
  destruct (is_underscore c).
  - intros [-> Hs]%andb_prop. simpl. apply IH, Hs.
  - intros [-> Hs]%andb_prop. simpl. apply IH, Hs.
Qed.

Lemma sub_nonslug_id b s :
  tidy b s = true ->
  re_sub_runs (fun c => negb (is_slug_char c)) [underscore] b s = s.
Proof.
  revert b. induction s as [|c s IH]; intros b; simpl; [reflexivity|].
  destruct (is_underscore c) eqn:Ec.
  - intros [Hb Hs]%andb_prop. destruct b; [discriminate|].
    destruct (is_slug_char c) eqn:Es.
    + rewrite (slug_char_not_underscore c Es) in Ec. discriminate.
    + simpl. rewrite (IH true Hs), (is_underscore_eq c Ec). reflexivity.
  - intros [-> Hs]%andb_prop. simpl. rewrite (IH false Hs). reflexivity.
Qed.

Lemma tidy_ascii b s : tidy b s = true -> forallb is_ascii s = true.
Proof.
  revert b. induction s as [|c s IH]; intros b; simpl; [reflexivity|].
  destruct (is_underscore c) eqn:Ec.
  - intros [_ Hs]%andb_prop. rewrite (is_underscore_eq c Ec). simpl.
    apply (IH true Hs).
  - intros [Hc Hs]%andb_prop. rewrite (IH false Hs), andb_true_r.
    unfold is_slug_char in Hc. unfold is_ascii. apply N.ltb_lt. numeric.
Qed.

Lemma tidy_lower b s : tidy b s = true -> List.map ascii_lower s = s.
Proof.
  revert b. induction s as [|c s IH]; intros b; simpl; [reflexivity|].
  assert (Hlow : (c = underscore \/ is_slug_char c = true) ->
                 ascii_lower c = c).
  { unfold ascii_lower, ascii_upper, is_slug_char, underscore.
    intros Hc. destruct ((65 <=? c) && (c <=? 90)) eqn:E; [|reflexivity].
    destruct Hc as [->|Hc]; [discriminate|]. numeric. }
  destruct (is_underscore c) eqn:Ec.
  - intros [_ Hs]%andb_prop. rewrite (IH true Hs), Hlow; [reflexivity|].
    left. apply is_underscore_eq, Ec.
  - intros [Hc Hs]%andb_prop. rewrite (IH false Hs), Hlow; auto.
Qed.

Lemma filter_forallb (p : char -> bool) s :
  forallb p s = true -> List.filter p s = s.
Proof.
  induction s as [|c s IH]; simpl; [reflexivity|].
  intros [-> Hs]%andb_prop. rewrite (IH Hs). reflexivity.
Qed.

Lemma rstrip_slug b s :
  slug_accept b s = true -> rstrip is_underscore s = s.
Proof.
  revert b. induction s as [|c s IH]; intros b; simpl; [reflexivity|].
  destruct (is_underscore c) eqn:Ec.
  - intros [_ Hs]%andb_prop. rewrite (IH true Hs).
    destruct s; [discriminate|reflexivity].
  - intros [_ Hs]%andb_prop. rewrite (IH false Hs).
    destruct s; reflexivity.
Qed.

Lemma lstrip_slug s :
  slug_accept true s = true -> lstrip is_underscore s = s.
Proof.
  destruct s as [|c s]; simpl; [reflexivity|].
  destruct (is_underscore c); [discriminate|reflexivity].
Qed.

Lemma normalize_name_fixes_slug `{Runtime} (y : str) :
  nfkd_fixes_ascii -> lower_on_ascii ->
  y = [] \/ is_slug y = true -> normalize_name y = y.
Proof.
  intros Hn Hl Hy. unfold normalize_name, re_sub_plus, strip.
  assert (Ht : tidy false y = true /\ lstrip is_underscore y = y /\
               rstrip is_underscore y = y).
  { destruct Hy as [->|Hy]; [repeat split|].
    split; [|split].
    - apply (tidy_weaken true), slug_accept_tidy, Hy.
    - apply lstrip_slug, Hy.
    - apply (rstrip_slug true), Hy. }
  destruct Ht as (Ht & Hls & Hrs).
  pose proof (tidy_ascii _ _ Ht) as Ha.
  rewrite (Hn y Ha), (filter_forallb _ _ Ha), (Hl y Ha), (tidy_lower _ _ Ht).
  rewrite (sub_nonslug_id _ _ Ht), (sub_underscore_tidy _ _ Ht), Hls, Hrs.
  reflexivity.
Qed.

(** C4.  The name normaliser returns the empty string or a string that
    matches [[a-z0-9]+(_[a-z0-9]+)*]: lowercase ASCII letters and digits
    in groups separated by single underscores, with no underscore at
    either end.  This holds for every input and whatever the Unicode
    tables do. *)
Theorem normalize_name_charset `{Runtime} (x : str) :
  normalize_name x = [] \/ matches slug_regex (normalize_name x).
Proof.
  destruct (normalize_name_shape x) as [He|Hs]; [left; exact He|].
  right. apply slug_accept_matches, Hs.
Qed.

(** C3.  Normalisation is idempotent, given that NFKD and lowercasing
    behave on ASCII text as they do in Python. *)
Theorem normalize_name_idempotent `{Runtime} (x : str) :
  nfkd_fixes_ascii -> lower_on_ascii ->
  normalize_name (normalize_name x) = normalize_name x.
Proof.
  intros Hn Hl. apply normalize_name_fixes_slug; auto.
  apply normalize_name_shape.
Qed.

Lemma sample_nfkd_fixes_ascii : @nfkd_fixes_ascii sample_runtime.
Proof.
  intros s. simpl. induction s as [|c s IH]; simpl; [reflexivity|].
  intros [Hc Hs]%andb_prop. rewrite (IH Hs).
  unfold is_ascii in Hc. apply N.ltb_lt in Hc.
  assert (Hd : sample_decompose c = [c]); [|rewrite Hd; reflexivity].
  unfold sample_decompose. destruct c as [|p]; [reflexivity|].
  do 8 (try (destruct p as [p|p|]; try reflexivity; try lia)).
Qed.

Lemma sample_lower_on_ascii : @lower_on_ascii sample_runtime.
Proof.
  intros s Hs. simpl. induction s as [|c s IH]; simpl; [reflexivity|].
  simpl in Hs. apply andb_prop in Hs as [Hc Hs]. rewrite (IH Hs). f_equal.
  unfold sample_lower_char, ascii_lower.
  destruct (ascii_upper c); [reflexivity|].
  destruct ((192 <=? c) && (c <=? 222) && negb (c =? 215)) eqn:E;
    [|reflexivity].
  unfold is_ascii in Hc. numeric.
Qed.

Lemma normalize_name_idempotent_witness :
  let x := lit "Banco Ita" ++ [250] ++ lit " S/A" in
  @nfkd_fixes_ascii sample_runtime /\ @lower_on_ascii sample_runtime /\
  @normalize_name sample_runtime (@normalize_name sample_runtime x)
  = @normalize_name sample_runtime x.
Proof.
  intros x. split; [exact sample_nfkd_fixes_ascii|].
  split; [exact sample_lower_on_ascii|].
  exact (@normalize_name_idempotent sample_runtime x
           sample_nfkd_fixes_ascii sample_lower_on_ascii).
Defined.

Example normalize_name_itau :
  @normalize_name sample_runtime (lit "Banco Ita" ++ [250] ++ lit " S/A")
  = lit "banco_itau_s_a".
Proof. reflexivity. Qed.

(** ** The candidate of a title *)

Section Selector.
Context `{Runtime}.

Lemma re_split_head_cons sep a rest :
  re_split_head sep (a :: rest)
  = if match_here sep (a :: rest) then [] else a :: re_split_head sep rest.
Proof. reflexivity. Qed.

Lemma has_sep_cons sep a rest :
  has_sep sep (a :: rest) = match_here sep (a :: rest) || has_sep sep rest.
Proof. reflexivity. Qed.

Lemma match_here_sep_at sep title :
  match_here sep title = true <-> sep_at sep [] title.
Proof.
  split.
  - destruct title as [|a [|b [|c post]]]; simpl; try discriminate.
    intros [[Ha Hb]%andb_prop Hc]%andb_prop.
    exists a, b, c, post. auto.
  - intros (w1 & s & w2 & post & -> & H1 & H2 & H3). simpl.
    rewrite H1, H2, H3. reflexivity.
Qed.

Lemma sep_at_cons sep a pre title :
  sep_at sep (a :: pre) (a :: title) <-> sep_at sep pre title.
Proof.
  split; intros (w1 & s & w2 & post & E & Hs);
    exists w1, s, w2, post; (split; [|exact Hs]).
  - simpl in E. congruence.
  - simpl. congruence.
Qed.

Lemma sep_at_head sep pre a title :
  sep_at sep pre (a :: title) ->
  pre = [] \/ exists pre', pre = a :: pre' /\ sep_at sep pre' title.
Proof.
  intros (w1 & s & w2 & post & E & Hs).
  destruct pre as [|b pre]; [left; reflexivity|]. right. simpl in E.
  injection E as <- E. exists pre. split; [reflexivity|].
  exists w1, s, w2, post. auto.
Qed.

Lemma re_split_head_first sep pre title :
  first_sep_at sep pre title -> re_split_head sep title = pre.
Proof.
  revert title. induction pre as [|a pre IH]; intros title [Hat Hmin].
  - apply match_here_sep_at in Hat.
    destruct title as [|b title]; [discriminate|].
    rewrite re_split_head_cons, Hat. reflexivity.
  - pose proof Hat as (w1 & s & w2 & post & -> & _).
    rewrite <- app_comm_cons in *. rewrite re_split_head_cons.
    destruct (match_here sep _) eqn:E.
    + apply match_here_sep_at, Hmin in E. simpl in E. lia.
    + f_equal. apply IH. split.
      * apply (sep_at_cons sep a). exact Hat.
      * intros pre' Hpre'. apply (sep_at_cons sep a) in Hpre'.
        apply Hmin in Hpre'. simpl in Hpre'. lia.
Qed.

Lemma re_split_head_none sep title :
  (forall pre, ~ sep_at sep pre title) -> re_split_head sep title = title.
Proof.
  induction title as [|a title IH]; intros Hno; [reflexivity|].
  rewrite re_split_head_cons. destruct (match_here sep _) eqn:E.
  - apply match_here_sep_at in E. destruct (Hno [] E).
  - f_equal. apply IH. intros pre Hpre.
    apply (Hno (a :: pre)), sep_at_cons, Hpre.
Qed.

Lemma has_sep_complete sep pre title :
  sep_at sep pre title -> has_sep sep title = true.
Proof.
  revert title. induction pre as [|a pre IH]; intros title Hat.
  - apply match_here_sep_at in Hat.
    destruct title; [discriminate|]. rewrite has_sep_cons, Hat. reflexivity.
  - pose proof Hat as (w1 & s & w2 & post & -> & _).
    rewrite <- app_comm_cons in *.
    rewrite has_sep_cons, (IH _ (proj1 (sep_at_cons _ _ _ _) Hat)).
    apply orb_true_r.
Qed.

Lemma sep_at_mono (sep sep' : char -> bool) pre title :
  (forall c, sep c = true -> sep' c = true) ->
  sep_at sep pre title -> sep_at sep' pre title.
Proof.
  intros Hsub (w1 & s & w2 & post & E & H1 & H2 & H3).
  exists w1, s, w2, post. auto.
Qed.

Lemma is_separator_cases c :
  is_separator c = true ->
  plain_separator c = true \/ dash_or_remnant c = true.
Proof.
  unfold is_separator. intros Hc.
  repeat (apply orb_prop in Hc as [Hc|Hc]);
    apply N.eqb_eq in Hc; subst c; vm_compute; auto.
Qed.

Lemma plain_is_separator c :
  plain_separator c = true -> is_separator c = true.
Proof.
  unfold is_separator, plain_separator. intros ->. reflexivity.
Qed.

Lemma re_split_head_is_first sep title :
  has_sep sep title = true ->
  first_sep_at sep (re_split_head sep title) title.
Proof.
  induction title as [|a title IH]; [discriminate|].
  rewrite has_sep_cons, re_split_head_cons.
  destruct (match_here sep (a :: title)) eqn:E; simpl orb; intros Hrest.
  - split; [apply match_here_sep_at, E | intros; simpl; lia].
  - destruct (IH Hrest) as [Hat Hmin]. split.
    + apply sep_at_cons, Hat.
    + intros pre' Hpre'.
      destruct (sep_at_head _ _ _ _ Hpre') as [->|(pre2 & -> & Hpre2)].
      * apply match_here_sep_at in Hpre'. congruence.
      * simpl. apply Hmin in Hpre2. lia.
Qed.

(** C2, as the code has it.  Take a title with no whitespace-flanked
    em-dash and none of U+00E2, U+20AC, U+201D flanked by whitespace.
    Its candidate is the text before the first hyphen, vertical bar or
    colon that has a whitespace character on each side, with leading and
    trailing whitespace removed; it is the whole title, so trimmed, when
    there is no such separator. *)
Theorem candidate_of_split (title : str) :
  (forall pre, ~ sep_at dash_or_remnant pre title) ->
  (forall pre, first_sep_at plain_separator pre title ->
     candidate_of title = strip is_space pre) /\
  ((forall pre, ~ sep_at plain_separator pre title) ->
     candidate_of title = strip is_space title).
Proof.
  intros Hclean.
  assert (Hplain : forall pre,
            sep_at is_separator pre title -> sep_at plain_separator pre title).
  { intros pre (w1 & s & w2 & post & E & H1 & Hs & H2).
    destruct (is_separator_cases s Hs) as [Hp|Hr].
    - exists w1, s, w2, post. auto.
    - destruct (Hclean pre). exists w1, s, w2, post. auto. }
  unfold candidate_of. split.
  - intros pre [Hat Hmin]. f_equal. apply re_split_head_first. split.
    + revert Hat. apply sep_at_mono, plain_is_separator.
    + intros pre' Hpre'. apply Hmin, Hplain, Hpre'.
  - intros Hnone. f_equal. apply re_split_head_none.
    intros pre Hpre. apply (Hnone pre), Hplain, Hpre.
Qed.

(** ** The filters of the selector *)

Lemma starts_with_iff needle hay :
  starts_with needle hay = true <-> exists post, hay = needle ++ post.
Proof.
  revert hay. induction needle as [|a needle IH]; intros hay; simpl.
  - split; eauto.
  - destruct hay as [|b hay].
    + split; [discriminate|]. intros (post & E). discriminate.
    + rewrite andb_true_iff, N.eqb_eq, IH. split.
      * intros (-> & post & ->). eauto.
      * intros (post & [= -> ->]). eauto.
Qed.

Lemma str_in_iff needle hay :
  str_in needle hay = true <-> occurs_in needle hay.
Proof.
  unfold occurs_in. induction hay as [|b hay IH]; simpl.
  - rewrite orb_false_r, starts_with_iff. split.
    + intros (post & E). exists [], post. exact E.
    + intros (pre & post & E). destruct pre; [eauto|discriminate].
  - rewrite orb_true_iff, starts_with_iff, IH. split.
    + intros [(post & E)|(pre & post & E)].
      * exists [], post. exact E.
      * exists (b :: pre), post. simpl. congruence.
    + intros ([|c pre] & post & E).
      * left. eauto.
      * right. injection E as _ E. eauto.
Qed.



Lemma pick_name_from_titles_cons title titles :
  pick_name_from_titles (title :: titles)
  = if existsb (fun phrase => str_in phrase (str_lower (candidate_of title)))
         STOP_PHRASES
       || existsb is_decimal (candidate_of title)
       || ((length (candidate_of title) <? 3)
           || (60 <? length (candidate_of title)))%nat
    then pick_name_from_titles titles
    else Some (candidate_of title).
Proof.
  cbn [pick_name_from_titles].
  destruct (existsb (fun phrase => str_in phrase _) STOP_PHRASES);
    [reflexivity|].
  destruct (existsb is_decimal _); reflexivity.
Qed.



End Selector.

(** C2 fails as worded: a vertical bar between two blanks splits the
    title, although it is none of hyphen, colon and em-dash. *)
Lemma title_split_pipe_counterexample :
  ~ @title_split_as_specified sample_runtime (lit "Nubank | Wikipedia").
Proof.
  intros [_ Hwhole].
  assert (Hnone : forall pre,
            ~ @sep_at sample_runtime named_separator pre
                (lit "Nubank | Wikipedia")).
  { intros pre Hpre. apply has_sep_complete in Hpre.
    vm_compute in Hpre. discriminate. }
  specialize (Hwhole Hnone). vm_compute in Hwhole. discriminate.
Qed.

Lemma candidate_of_split_witness :
  let title := lit "Nubank | Wikipedia" in
  (forall pre, ~ @sep_at sample_runtime dash_or_remnant pre title) /\
  @first_sep_at sample_runtime plain_separator (lit "Nubank") title /\
  @candidate_of sample_runtime title = lit "Nubank".
Proof.
  intros title.
  assert (Hclean : forall pre,
            ~ @sep_at sample_runtime dash_or_remnant pre title).
  { intros pre Hpre. apply has_sep_complete in Hpre.
    vm_compute in Hpre. discriminate. }
  assert (Hfirst : @first_sep_at sample_runtime plain_separator
                     (lit "Nubank") title).
  { apply (@re_split_head_is_first sample_runtime plain_separator title).
    reflexivity. }
  split; [exact Hclean|]. split; [exact Hfirst|].
  exact (proj1 (@candidate_of_split sample_runtime title Hclean)
           (lit "Nubank") Hfirst).
Defined.

(** ** The fetcher *)

Lemma lit_inj a b : lit a = lit b -> a = b.
Proof.
  unfold lit. intros E.
  rewrite <- (string_of_list_ascii_of_string a),
          <- (string_of_list_ascii_of_string b).
  f_equal. revert E.
  generalize (list_ascii_of_string a) (list_ascii_of_string b).
  induction l as [|x l IH]; intros [|y l']; simpl; try discriminate;
    [reflexivity|].
  intros [= Exy El]. f_equal; [|apply IH, El].
  rewrite <- (ascii_N_embedding x), <- (ascii_N_embedding y). congruence.
Qed.

Lemma str_of_N_inj a b : str_of_N a = str_of_N b -> a = b.
Proof.
  unfold str_of_N. intros E%lit_inj.
  assert (Eu : N.to_uint a = N.to_uint b).
  { pose proof (NilEmpty.usu (N.to_uint a)) as Ha.
    pose proof (NilEmpty.usu (N.to_uint b)) as Hb.
    rewrite E in Ha. congruence. }
  rewrite <- (DecimalN.Unsigned.of_to a), <- (DecimalN.Unsigned.of_to b).
  congruence.
Qed.

Section Fetcher.
Context `{Network}.
Import Download.

Lemma output_name_inj a b : output_name a = output_name b -> a = b.
Proof. unfold output_name. intros E%app_inv_tail. apply str_of_N_inj, E. Qed.

Lemma download_svg_ok w icon_id body :
  has_dir w = true ->
  reply_to (length (requests w)) (BASE_URL icon_id) = Responds 200 body ->
  download_svg icon_id w
  = (set_files (<[output_name icon_id := body]> (files w))
       (log_request (BASE_URL icon_id) w),
     Returned true).
Proof.
  intros Hdir Hreply.
  unfold download_svg, catch, urlopen, write_file, mbind, M_bind, mret, M_ret.
  rewrite Hreply. simpl. rewrite Hdir. reflexivity.
Qed.

Lemma download_svg_failed w icon_id :
  failed_reply (reply_to (length (requests w)) (BASE_URL icon_id)) = true ->
  exists w',
    download_svg icon_id w = (w', Returned false) /\
    files w' = files w /\ has_dir w' = has_dir w /\
    requests w' = requests w ++ [BASE_URL icon_id].
Proof.
  intros Hfail.
  unfold download_svg, catch, urlopen, print, mbind, M_bind, mret, M_ret.
  destruct (reply_to _ _) as [status body|[|reason|path]];
    simpl in *; try discriminate.
  - rewrite Hfail. simpl. eauto.
  - eauto.
  - eauto.
Qed.

(** C10.  [download_svg] reports failure exactly on a status other than
    200, an HTTP error or a network error; whenever it reports failure the
    directory is what it was; and a file changes only when the reply had
    status 200 and its body was read, in which case that body is written
    to [<identifier>.svg]. *)
Theorem download_svg_failure_keeps_files (w : world) (icon_id : N) :
  let r := reply_to (length (requests w)) (BASE_URL icon_id) in
  (failed_reply r = true <->
     exists w', download_svg icon_id w = (w', Returned false)) /\
  (forall w', download_svg icon_id w = (w', Returned false) ->
     files w' = files w /\ has_dir w' = has_dir w) /\
  (forall w' o, download_svg icon_id w = (w', o) -> files w' <> files w ->
     exists body,
       r = Responds 200 body /\
       files w' = <[output_name icon_id := body]> (files w)).
Proof.
  intros r. subst r.
  unfold download_svg, catch, urlopen, print, write_file, raise,
    mbind, M_bind, mret, M_ret.
  destruct (reply_to _ _) as [status body|[|reason|path]]; simpl.
  - destruct (status =? 200) eqn:Es; simpl.
    + apply N.eqb_eq in Es. subst status.
      destruct (has_dir w); simpl; (split; [|split]).
      * split; [discriminate|]. intros (w' & [= _]).
      * intros w' [= _].
      * intros w' o [= <- _] _. simpl. eauto.
      * split; [discriminate|]. intros (w' & [= _]).
      * intros w' [= _].
      * intros w' o [= <- _] Hne. destruct Hne. reflexivity.
    + split; [|split].
      * split; eauto.
      * intros w' [= <-]. auto.
      * intros w' o [= <- _] Hne. destruct Hne. reflexivity.
  - split; [|split].
    + split; eauto.
    + intros w' [= <-]. auto.
    + intros w' o [= <- _] Hne. destruct Hne. reflexivity.
  - split; [|split].
    + split; eauto.
    + intros w' [= <-]. auto.
    + intros w' o [= <- _] Hne. destruct Hne. reflexivity.
  - split; [|split].
    + split; [discriminate|]. intros (w' & [= _]).
    + intros w' [= _].
    + intros w' o [= <- _] Hne. destruct Hne. reflexivity.
Qed.

Lemma ids_from_succ start count :
  ids_from start (S count) = start :: ids_from (start + 1) count.
Proof.
  unfold ids_from. simpl. rewrite N.add_0_r. f_equal.
  rewrite <- seq_shift, List.map_map. apply List.map_ext.
  intros i. lia.
Qed.

Lemma download_from_S fuel icon_id w :
  download_from (S fuel) icon_id w
  = match download_svg icon_id w with
    | (w1, Returned true) =>
        download_from fuel (icon_id + 1)
          (log_line (lit "Downloaded " ++ str_of_N icon_id ++ lit ".svg") w1)
    | (w1, Returned false) =>
        (log_line (lit "Stopped on id " ++ str_of_N icon_id
                   ++ lit " (download failed).") w1,
         Returned (Some tt))
    | (w1, Raised e) => (w1, Raised e)
    end.
Proof.
  cbn [download_from]. unfold mbind, M_bind.
  destruct (download_svg icon_id w) as [w1 [[|]|e]]; reflexivity.
Qed.

Lemma download_from_run (k : nat) :
  forall (fuel : nat) (start : N) (w : world) (body : nat -> bytes),
  has_dir w = true ->
  (forall i, (i < k)%nat ->
     reply_to (length (requests w) + i) (BASE_URL (start + N.of_nat i))
     = Responds 200 (body i)) ->
  failed_reply
    (reply_to (length (requests w) + k) (BASE_URL (start + N.of_nat k)))
  = true ->
  (k < fuel)%nat ->
  exists w',
    download_from fuel start w = (w', Returned (Some tt)) /\
    requests w' = requests w ++ List.map BASE_URL (ids_from start (S k)) /\
    (forall i, (i < k)%nat ->
       files w' !! output_name (start + N.of_nat i) = Some (body i)) /\
    (forall name,
       (forall i, (i < k)%nat -> name <> output_name (start + N.of_nat i)) ->
       files w' !! name = files w !! name).
Proof.
  induction k as [|k IH]; intros fuel start w body Hdir Hok Hfail Hfuel;
    (destruct fuel as [|fuel]; [lia|]); rewrite download_from_S.
  - rewrite Nat.add_0_r, N.add_0_r in Hfail.
    destruct (download_svg_failed w start Hfail) as (w1 & E & Hf & _ & Hr).
    rewrite E. eexists. split; [reflexivity|].
    cbn [log_line requests files]. split; [|split].
    + rewrite Hr. unfold ids_from. simpl. rewrite N.add_0_r. reflexivity.
    + intros i Hi. lia.
    + intros name _. rewrite Hf. reflexivity.
  - pose proof (Hok 0%nat ltac:(lia)) as H0.
    rewrite Nat.add_0_r, N.add_0_r in H0.
    rewrite (download_svg_ok w start (body 0%nat) Hdir H0).
    set (w1 := log_line _ _).
    assert (Hreq : requests w1 = requests w ++ [BASE_URL start])
      by reflexivity.
    assert (Hfs : files w1 = <[output_name start := body 0%nat]> (files w))
      by reflexivity.
    assert (Hlen : forall i, (length (requests w1) + i
                              = length (requests w) + S i)%nat).
    { intros i. rewrite Hreq, length_app. simpl. lia. }
    destruct (IH fuel (start + 1) w1 (fun i => body (S i)))
      as (w' & E & Hr & Hfiles & Hframe).
    + subst w1. simpl. exact Hdir.
    + intros i Hi. rewrite Hlen.
      replace (start + 1 + N.of_nat i) with (start + N.of_nat (S i)) by lia.
      apply Hok. lia.
    + rewrite Hlen.
      replace (start + 1 + N.of_nat k) with (start + N.of_nat (S k)) by lia.
      exact Hfail.
    + lia.
    + exists w'. split; [exact E|]. split; [|split].
      * rewrite Hr, Hreq, (ids_from_succ start (S k)).
        cbn [List.map]. rewrite <- app_assoc. reflexivity.
      * intros [|i] Hi.
        -- rewrite Hframe.
           ++ rewrite Hfs, N.add_0_r. apply lookup_insert_eq.
           ++ intros j _ Ej. apply output_name_inj in Ej. lia.
        -- replace (start + N.of_nat (S i)) with (start + 1 + N.of_nat i)
             by lia.
           apply Hfiles. lia.
      * intros name Hname. rewrite Hframe.
        -- rewrite Hfs. apply lookup_insert_ne.
           specialize (Hname 0%nat ltac:(lia)).
           rewrite N.add_0_r in Hname. congruence.
        -- intros i Hi.
           replace (start + 1 + N.of_nat i) with (start + N.of_nat (S i))
             by lia.
           apply Hname. lia.
Qed.

(** C7.  Let the CDN deliver the icons [201], ..., [201 + k - 1] and fail
    on [201 + k].  Then the driver ends with status 0 (any fuel above [k]
    is enough), it has requested exactly [201], [202], ..., [201 + k], in
    this order and nothing after the failing identifier, every icon before
    the failing one is in its file, and no other file was touched. *)
Theorem fetcher_stops_at_first_failure
    (w : world) (k fuel : nat) (body : nat -> bytes) :
  (forall i, (i < k)%nat ->
     reply_to (length (requests w) + i) (BASE_URL (201 + N.of_nat i))
     = Responds 200 (body i)) ->
  failed_reply
    (reply_to (length (requests w) + k) (BASE_URL (201 + N.of_nat k)))
  = true ->
  (k < fuel)%nat ->
  exists w',
    main fuel w = (w', Returned (Some 0)) /\
    requests w' = requests w ++ List.map BASE_URL (ids_from 201 (S k)) /\
    (forall i, (i < k)%nat ->
       files w' !! output_name (201 + N.of_nat i) = Some (body i)) /\
    (forall name,
       (forall i, (i < k)%nat -> name <> output_name (201 + N.of_nat i)) ->
       files w' !! name = files w !! name).
Proof.
  intros Hok Hfail Hfuel.
  set (w0 := World true (files w) (requests w) (console w) (slept w)).
  destruct (download_from_run k fuel 201 w0 body eq_refl Hok Hfail Hfuel)
    as (w' & E & Hrest).
  exists w'. split; [|exact Hrest].
  unfold main, makedirs, mbind, M_bind. fold w0. rewrite E. reflexivity.
Qed.

End Fetcher.

Lemma fetcher_stops_at_first_failure_witness :
  exists w',
    @Download.main cdn_five 10 empty_world = (w', Returned (Some 0)) /\
    requests w'
    = List.map Download.BASE_URL [201; 202; 203; 204; 205; 206] /\
    (forall i, (i < 5)%nat ->
       files w' !! Download.output_name (201 + N.of_nat i)
       = Some (lit "<svg/>" ++ [N.of_nat i])) /\
    (forall name,
       (forall i, (i < 5)%nat ->
          name <> Download.output_name (201 + N.of_nat i)) ->
       files w' !! name = files empty_world !! name).
Proof.
  apply (@fetcher_stops_at_first_failure cdn_five empty_world 5 10
           (fun i => lit "<svg/>" ++ [N.of_nat i])).
  - intros i Hi. simpl.
    destruct (Nat.ltb_spec i 5) as [_|Hge]; [reflexivity|lia].
  - reflexivity.
  - lia.
Defined.

(** ** The orchestrator *)

Section Orchestrator.
Context `{Runtime} `{Network}.
Import Rename.

Lemma fetch_search_results_run query w :
  fetch_search_results query w
  = match reply_to (length (requests w)) (search_url query) with
    | Responds _ body =>
        (log_request (search_url query) w,
         Returned (titles_of_page (decode_utf8_ignore body)))
    | Refuses e => (log_request (search_url query) w, Raised e)
    end.
Proof.
  unfold fetch_search_results, urlopen, mbind, M_bind, search_url.
  destruct (reply_to _ _); reflexivity.
Qed.

Lemma try_queries_cons query queries w :
  try_queries (query :: queries) w
  = match query_result (length (requests w)) query with
    | Returned (Some slug) =>
        (log_request (search_url query) w, Returned (Some slug))
    | Returned None =>
        try_queries queries (add_sleep 1 (log_request (search_url query) w))
    | Raised e => (log_request (search_url query) w, Raised e)
    end.
Proof.
  cbn [try_queries]. unfold mbind at 1. unfold M_bind.
  rewrite fetch_search_results_run. unfold query_result.
  destruct (reply_to _ _) as [status body|e]; [|reflexivity].
  destruct (slug_of_titles _); reflexivity.
Qed.

Lemma slug_of_titles_some titles slug :
  slug_of_titles titles = Some slug ->
  slug <> [] /\ is_slug slug = true /\
  exists candidate,
    pick_name_from_titles titles = Some candidate /\
    slug = normalize_name candidate.
Proof.
  unfold slug_of_titles.
  destruct (pick_name_from_titles titles) as [candidate|]; [|discriminate].
  destruct (truthy candidate); [|discriminate].
  destruct (truthy (normalize_name candidate)) eqn:Et; [|discriminate].
  intros [= <-].
  assert (Hne : normalize_name candidate <> []).
  { intros E. rewrite E in Et. discriminate. }
  split; [exact Hne|]. split; [|eauto].
  destruct (normalize_name_shape candidate); [contradiction|assumption].
Qed.

Lemma query_result_some sent query slug :
  query_result sent query = Returned (Some slug) ->
  slug <> [] /\ is_slug slug = true.
Proof.
  unfold query_result. destruct (reply_to _ _); [|discriminate].
  intros [= E]. apply slug_of_titles_some in E. tauto.
Qed.

Lemma try_queries_spec queries :
  forall w,
    tried_in_order queries w (fst (try_queries queries w))
      (snd (try_queries queries w)).
Proof.
  induction queries as [|query queries IH]; intros w.
  - cbn. repeat split; try (rewrite ?app_nil_r; reflexivity);
      try (cbn; lia).
    intros i q Hq. discriminate.
  - rewrite try_queries_cons.
    destruct (query_result (length (requests w)) query)
      as [[slug|]|e] eqn:Eq.
    + cbn [fst snd]. do 3 (split; [reflexivity|]).
      exists [], query, queries. cbn [app length List.map].
      rewrite !Nat.add_0_r.
      do 3 (split; [reflexivity|]).
      split; [intros i q Hq; discriminate|]. split; [exact Eq|].
      exact (query_result_some _ _ _ Eq).
    + set (w1 := add_sleep 1 (log_request (search_url query) w)).
      specialize (IH w1).
      destruct (try_queries queries w1) as [w' result]. cbn [fst snd] in *.
      assert (Hlen : length (requests w1) = S (length (requests w))).
      { subst w1. cbn. rewrite length_app. cbn. lia. }
      assert (Hreq : requests w1 = requests w ++ [search_url query])
        by reflexivity.
      assert (Hsl : slept w1 = (slept w + 1)%nat) by reflexivity.
      destruct IH as (Hf & Hd & Hc & IH). rewrite Hlen in IH.
      do 3 (split; [assumption|]).
      assert (Hshift : forall (l : list (list N)),
                (forall i q, l !! i = Some q ->
                   query_result (S (length (requests w)) + i) q
                   = Returned None) ->
                forall i q, (query :: l) !! i = Some q ->
                  query_result (length (requests w) + i) q = Returned None).
      { intros l Hl [|i] q Hq.
        - injection Hq as <-. rewrite Nat.add_0_r. exact Eq.
        - replace (length (requests w) + S i)%nat
            with (S (length (requests w)) + i)%nat by lia.
          apply Hl, Hq. }
      assert (Hfound : forall r,
                (exists earlier q later,
                   queries = earlier ++ q :: later /\
                   requests w'
                   = requests w1 ++ List.map search_url (earlier ++ [q]) /\
                   slept w' = (slept w1 + length earlier)%nat /\
                   (forall i q0, earlier !! i = Some q0 ->
                      query_result (S (length (requests w)) + i) q0
                      = Returned None) /\
                   query_result (S (length (requests w)) + length earlier) q
                   = r /\
                   match r with
                   | Returned (Some slug) => slug <> [] /\ is_slug slug = true
                   | _ => True
                   end) ->
                exists earlier q later,
                   query :: queries = earlier ++ q :: later /\
                   requests w'
                   = requests w ++ List.map search_url (earlier ++ [q]) /\
                   slept w' = (slept w + length earlier)%nat /\
                   (forall i q0, earlier !! i = Some q0 ->
                      query_result (length (requests w) + i) q0
                      = Returned None) /\
                   query_result (length (requests w) + length earlier) q
                   = r /\
                   match r with
                   | Returned (Some slug) => slug <> [] /\ is_slug slug = true
                   | _ => True
                   end).
      { intros r (earlier & q & later & -> & Hr & Hs & Hnone & Hq & Hok).
        exists (query :: earlier), q, later. cbn [app length List.map].
        rewrite Hr, Hreq, Hs, Hsl, <- app_assoc.
        split; [reflexivity|]. split; [reflexivity|]. split; [lia|].
        split; [apply Hshift, Hnone|]. split; [|exact Hok].
        replace (length (requests w) + S (length earlier))%nat
          with (S (length (requests w)) + length earlier)%nat by lia.
        exact Hq. }
      destruct result as [[slug|]|e].
      * apply Hfound, IH.
      * destruct IH as (Hr & Hs & Hnone).
        rewrite Hr, Hreq, Hs, Hsl, <- app_assoc. cbn [length List.map app].
        split; [reflexivity|]. split; [lia|]. apply Hshift, Hnone.
      * apply Hfound, IH.
    + cbn [fst snd]. do 3 (split; [reflexivity|]).
      exists [], query, queries. cbn [app length List.map].
      rewrite !Nat.add_0_r.
      do 3 (split; [reflexivity|]).
      split; [intros i q Hq; discriminate|]. split; [exact Eq|]. exact I.
Qed.

End Orchestrator.

(** ** One file of the batch *)

Section Driver.
Context `{Runtime} `{Network}.
Import Rename.

Lemma identify_institution_frame icon_id hints w w1 r :
  identify_institution icon_id hints w = (w1, r) ->
  files w1 = files w /\ has_dir w1 = has_dir w /\ console w1 = console w /\
  (exists sent, requests w1 = requests w ++ sent) /\
  forall slug, r = Returned (Some slug) -> truthy slug = true.
Proof.
  intros E. pose proof (try_queries_spec (queries_for icon_id hints) w) as Hs.
  unfold identify_institution in E. rewrite E in Hs. cbn [fst snd] in Hs.
  destruct Hs as (Hf & Hd & Hc & Hr). do 3 (split; [assumption|]).
  assert (Hfound :
    (exists earlier query later,
       queries_for icon_id hints = earlier ++ query :: later /\
       requests w1
       = requests w ++ List.map search_url (earlier ++ [query]) /\
       slept w1 = (slept w + length earlier)%nat /\
       (forall i q, earlier !! i = Some q ->
          query_result (length (requests w) + i) q = Returned None) /\
       query_result (length (requests w) + length earlier) query = r /\
       match r with
       | Returned (Some slug) => slug <> [] /\ is_slug slug = true
       | _ => True
       end) ->
    (exists sent, requests w1 = requests w ++ sent) /\
    forall slug, r = Returned (Some slug) -> truthy slug = true).
  { intros (earlier & q & later & _ & Hreq & _ & _ & _ & Hok).
    split; [eauto|]. intros slug ->. destruct Hok as [Hne _].
    unfold truthy. rewrite bool_decide_eq_false_2; auto. }
  destruct r as [[slug|]|e]; [apply Hfound, Hr| |apply Hfound, Hr].
  destruct Hr as (Hreq & _). split; [eauto|]. intros slug [=].
Qed.

Lemma process_file_run filename w :
  process_file filename w
  = match files w !! filename with
    | None => (w, Raised (FileNotFoundError filename))
    | Some content =>
        match identify_institution (before_dot filename)
                (extract_hints (read_text content)) w with
        | (w1, Raised e) => (w1, Raised e)
        | (w1, Returned None) =>
            (log_line (msg_no_match filename) w1, Returned tt)
        | (w1, Returned (Some name)) =>
            let new_name := target_name (before_dot filename) name in
            match files w1 !! new_name with
            | Some _ =>
                (log_line (msg_target_exists filename new_name) w1,
                 Returned tt)
            | None =>
                (add_sleep 1
                   (log_line (msg_renamed filename new_name)
                      (set_files
                         (<[new_name := content]>
                            (delete filename (files w1))) w1)),
                 Returned tt)
            end
        end
    end.
Proof.
  unfold process_file, read_bytes. unfold mbind at 1. unfold M_bind at 1.
  destruct (files w !! filename) as [content|] eqn:Efile; [|reflexivity].
  unfold mbind at 1. unfold M_bind at 1.
  destruct (identify_institution _ _ w) as [w1 [[name|]|e]] eqn:Eid;
    try reflexivity.
  destruct (identify_institution_frame _ _ _ _ _ Eid)
    as (Hf & _ & _ & _ & Htruthy).
  rewrite (Htruthy name eq_refl).
  unfold path_exists, rename, print, sleep, mbind, M_bind. cbn zeta.
  destruct (files w1 !! target_name (before_dot filename) name) eqn:Et.
  - rewrite bool_decide_eq_true_2; [reflexivity|eauto].
  - rewrite bool_decide_eq_false_2; [|intros [? ?]; discriminate].
    rewrite Hf, Efile. reflexivity.
Qed.

(** C9.  When [<identifier>_<slug>.svg] is already there as the driver
    comes to [<identifier>.svg] and the orchestrator names that slug, the
    driver prints the skip line and does nothing else: the directory
    holds the same files with the same contents, both files among them. *)
Theorem target_exists_skip (filename : str) (content : bytes)
    (w w1 : world) (slug : str) :
  files w !! filename = Some content ->
  identify_institution (before_dot filename)
    (extract_hints (read_text content)) w = (w1, Returned (Some slug)) ->
  is_Some (files w !! target_name (before_dot filename) slug) ->
  process_file filename w
  = (log_line
       (msg_target_exists filename (target_name (before_dot filename) slug))
       w1,
     Returned tt)
  /\ files (fst (process_file filename w)) = files w
  /\ console (fst (process_file filename w))
     = console w
       ++ [msg_target_exists filename
             (target_name (before_dot filename) slug)].
Proof.
  intros Hfile Hid [old Hold].
  destruct (identify_institution_frame _ _ _ _ _ Hid) as (Hf & _ & Hc & _).
  assert (E : process_file filename w
              = (log_line
                   (msg_target_exists filename
                      (target_name (before_dot filename) slug)) w1,
                 Returned tt)).
  { rewrite process_file_run, Hfile, Hid. cbn zeta.
    rewrite Hf, Hold. reflexivity. }
  rewrite E. cbn [fst log_line files console].
  rewrite Hf, Hc. auto.
Qed.

End Driver.

Lemma target_exists_skip_witness :
  let filename := lit "201.svg" in
  let w1 :=
    log_request
      (@search_url sample_runtime (lit "pluggy connector 201 svg bank"))
      collision_world in
  let report := Rename.msg_target_exists filename (lit "201_nubank.svg") in
  files collision_world !! filename = Some nubank_svg /\
  is_Some (files collision_world !! lit "201_nubank.svg") /\
  @Rename.process_file sample_runtime search_nubank filename collision_world
  = (log_line report w1, Returned tt) /\
  files (fst (@Rename.process_file sample_runtime search_nubank filename
                collision_world))
  = files collision_world /\
  console (fst (@Rename.process_file sample_runtime search_nubank filename
                  collision_world))
  = console collision_world ++ [report].
Proof.
  intros filename w1 report.
  assert (Hfile : files collision_world !! filename = Some nubank_svg)
    by (vm_compute; reflexivity).
  assert (Hid : @Rename.identify_institution sample_runtime search_nubank
                  (before_dot filename)
                  (@extract_hints sample_runtime
                     (@read_text sample_runtime nubank_svg))
                  collision_world
                = (w1, Returned (Some (lit "nubank"))))
    by (vm_compute; reflexivity).
  assert (Htaken : is_Some (files collision_world
                            !! Rename.target_name (before_dot filename)
                                 (lit "nubank")))
    by (vm_compute; eauto).
  split; [exact Hfile|]. split; [exact Htaken|].
  exact (@target_exists_skip sample_runtime search_nubank filename nubank_svg
           collision_world w1 (lit "nubank") Hfile Hid Htaken).
Defined.

(** ** The scan pattern *)

Section Scan.
Context `{Runtime}.
Import Rename.

Lemma str_eqb_eq a b : str_eqb a b = true -> a = b.
Proof.
  unfold str_eqb. intros [Hs Hl]%andb_prop.
  apply starts_with_iff in Hs as (post & ->).
  apply Nat.eqb_eq in Hl. rewrite length_app in Hl.
  destruct post; [symmetry; apply app_nil_r|simpl in Hl; lia].
Qed.

Lemma remove_suffix_some suffix name digits :
  remove_suffix suffix name = Some digits -> name = digits ++ suffix.
Proof.
  unfold remove_suffix.
  destruct (str_eqb _ suffix) eqn:E; [|discriminate].
  intros [= <-]. apply str_eqb_eq in E.
  rewrite <- E at 2. symmetry. apply take_drop.
Qed.

Lemma forallb_app_inv (p : char -> bool) (a b : str) :
  forallb p (a ++ b) = true -> forallb p a = true /\ forallb p b = true.
Proof. rewrite forallb_app. apply andb_prop. Qed.

(** A name of the post-naming form never matches the scan pattern. *)
Lemma scan_match_target icon_id slug :
  is_decimal underscore = false ->
  scan_match (target_name icon_id slug) = false.
Proof.
  intros Hus. unfold scan_match. cbn [existsb].
  rewrite orb_false_r. apply orb_false_iff. split.
  - destruct (remove_suffix (lit ".svg") _) as [digits|] eqn:E;
      [|reflexivity].
    apply remove_suffix_some in E. unfold target_name in E.
    rewrite !app_assoc in E. apply app_inv_tail in E. subst digits.
    apply andb_false_iff. right.
    destruct (forallb is_decimal _) eqn:Ef; [|reflexivity].
    apply forallb_app_inv in Ef as [Ef _].
    apply forallb_app_inv in Ef as [_ Ef].
    change (lit "_") with [underscore] in Ef. simpl in Ef.
    rewrite Hus in Ef. discriminate.
  - destruct (remove_suffix (lit ".svg" ++ [10]) _) as [digits|] eqn:E;
      [|reflexivity].
    apply remove_suffix_some in E. unfold target_name in E.
    change (lit ".svg") with ([46; 115; 118] ++ [103]) in E.
    rewrite !app_assoc in E. apply app_inj_tail in E as [_ E].
    discriminate.
Qed.

Lemma insert_by_key_perm key x l : insert_by_key key x l ≡ₚ x :: l.
Proof.
  induction l as [|y l IH]; simpl; [reflexivity|].
  destruct (key x <=? key y); [reflexivity|].
  rewrite IH. apply Permutation_swap.
Qed.

Lemma sorted_by_key_perm key l : sorted_by_key key l ≡ₚ l.
Proof.
  induction l as [|x l IH]; simpl; [reflexivity|].
  rewrite insert_by_key_perm, IH. reflexivity.
Qed.

Lemma worklist_elem names filename :
  filename ∈ worklist names <->
  filename ∈ names /\ scan_match filename = true.
Proof.
  unfold worklist. rewrite sorted_by_key_perm.
  rewrite !list_elem_of_In, filter_In. reflexivity.
Qed.

Lemma worklist_NoDup names : NoDup names -> NoDup (worklist names).
Proof.
  intros Hn. unfold worklist. rewrite sorted_by_key_perm.
  apply NoDup_ListNoDup, List.NoDup_filter, NoDup_ListNoDup, Hn.
Qed.

Lemma names_of_elem w name : name ∈ names_of w <-> is_Some (files w !! name).
Proof.
  unfold names_of. change (List.map fst) with (fmap (M:=list) (@fst str bytes)).
  rewrite list_elem_of_fmap. split.
  - intros ([n c] & -> & Hin). apply elem_of_map_to_list in Hin. eauto.
  - intros [c Hc]. exists (name, c). split; [reflexivity|].
    apply elem_of_map_to_list, Hc.
Qed.

Lemma names_of_NoDup w : NoDup (names_of w).
Proof. apply NoDup_fst_map_to_list. Qed.

End Scan.

(** ** The batch *)

Section Batch.
Context `{Runtime} `{Network}.
Import Rename.



(** One file leaves the other files of the directory alone. *)
Lemma process_file_other filename w w' o name content :
  process_file filename w = (w', o) ->
  name <> filename ->
  files w !! name = Some content ->
  files w' !! name = Some content.
Proof.
  rewrite process_file_run. intros E Hne Hname.
  destruct (files w !! filename) as [c|]; [|injection E as <- _; exact Hname].
  destruct (identify_institution _ _ w) as [w1 r] eqn:Eid.
  destruct (identify_institution_frame _ _ _ _ _ Eid) as (Hf & _).
  rewrite <- Hf in Hname.
  destruct r as [[slug|]|e]; cbn zeta in E;
    try (injection E as <- _; exact Hname).
  destruct (files w1 !! target_name (before_dot filename) slug) eqn:Et;
    injection E as <- _; [exact Hname|].
  cbn. rewrite lookup_insert_ne; [|congruence].
  rewrite lookup_delete_ne; [exact Hname|congruence].
Qed.

(** One file stays where it is or takes its post-naming name. *)
Lemma process_file_self filename w w' o content :
  process_file filename w = (w', o) ->
  files w !! filename = Some content ->
  exists name', kept_or_named filename name' /\
                files w' !! name' = Some content.
Proof.
  rewrite process_file_run. intros E Hfile. rewrite Hfile in E.
  destruct (identify_institution _ _ w) as [w1 r] eqn:Eid.
  destruct (identify_institution_frame _ _ _ _ _ Eid)
    as (Hf & _ & _ & _ & Htruthy).
  assert (Hstay : files w1 !! filename = Some content) by (rewrite Hf; auto).
  destruct r as [[slug|]|e]; cbn zeta in E;
    try (injection E as <- _; exists filename; split; [left|]; auto; fail).
  destruct (files w1 !! target_name (before_dot filename) slug) eqn:Et;
    injection E as <- _.
  - exists filename. split; [left; reflexivity|exact Hstay].
  - exists (target_name (before_dot filename) slug). split.
    + right. exists slug. split; [|reflexivity].
      specialize (Htruthy slug eq_refl). unfold truthy in Htruthy.
      intros ->. discriminate.
    + cbn. apply lookup_insert_eq.
Qed.

Lemma process_all_cons filename filenames w :
  process_all (filename :: filenames) w
  = match process_file filename w with
    | (w1, Returned _) => process_all filenames w1
    | (w1, Raised e) => (w1, Raised e)
    end.
Proof. reflexivity. Qed.


Lemma main_run w :
  main w
  = if has_dir w then
      match List.filter scan_match (names_of w) with
      | [] => (log_line (lit "No SVG files found to rename.") w, Returned 0)
      | _ :: _ =>
          match process_all (worklist (names_of w)) w with
          | (w', Returned _) => (w', Returned 0)
          | (w', Raised e) => (w', Raised e)
          end
      end
    else
      (log_line (lit "Directory 'connector-icons' not found.") w, Returned 1).
Proof.
  unfold main, isdir, listdir, print, mbind, M_bind, mret, M_ret.
  destruct (has_dir w); [|reflexivity]. cbn [negb]. fold (names_of w).
  destruct (List.filter scan_match (names_of w)) eqn:E; [reflexivity|].
  destruct (process_all _ w) as [w' [[]|e]]; reflexivity.
Qed.


Lemma process_all_untouched filenames :
  forall w name content,
    name ∉ filenames ->
    files w !! name = Some content ->
    files (fst (process_all filenames w)) !! name = Some content.
Proof.
  induction filenames as [|f rest IH]; intros w name content Hnot Hname;
    [exact Hname|].
  apply not_elem_of_cons in Hnot as [Hne Hnot].
  rewrite process_all_cons.
  destruct (process_file f w) as [w1 [[]|e]] eqn:Ef.
  - apply IH; [exact Hnot|].
    apply (process_file_other _ _ _ _ _ _ Ef Hne Hname).
  - apply (process_file_other _ _ _ _ _ _ Ef Hne Hname).
Qed.

Lemma process_all_kept filenames :
  is_decimal underscore = false ->
  forall w name content,
    (forall f, f ∈ filenames -> scan_match f = true) ->
    files w !! name = Some content ->
    exists name',
      kept_or_named name name' /\
      files (fst (process_all filenames w)) !! name' = Some content.
Proof.
  intros Hus.
  induction filenames as [|f rest IH]; intros w name content Hscan Hname.
  - exists name. split; [left; reflexivity|exact Hname].
  - assert (Hrest : forall g, g ∈ rest -> scan_match g = true).
    { intros g Hg. apply Hscan. right. exact Hg. }
    rewrite process_all_cons.
    destruct (process_file f w) as [w1 o] eqn:Ef.
    assert (Hstep : exists name1,
              kept_or_named name name1 /\ files w1 !! name1 = Some content /\
              (name1 = name \/ scan_match name1 = false)).
    { destruct (decide (name = f)) as [->|Hne].
      - destruct (process_file_self _ _ _ _ _ Ef Hname)
          as (name1 & Hk & Hl).
        exists name1. split; [exact Hk|]. split; [exact Hl|].
        destruct Hk as [->|(slug & _ & ->)]; [left; reflexivity|].
        right. apply scan_match_target, Hus.
      - exists name. split; [left; reflexivity|]. split; [|left; reflexivity].
        apply (process_file_other _ _ _ _ _ _ Ef Hne Hname). }
    destruct Hstep as (name1 & Hk & Hl & Hwhere).
    destruct o as [[]|e]; [|exists name1; split; assumption].
    destruct Hwhere as [->|Hnoscan]; [apply IH; assumption|].
    exists name1. split; [exact Hk|].
    apply process_all_untouched; [|exact Hl].
    intros Hin. apply Hrest in Hin. congruence.
Qed.

Lemma process_file_size filename w w' o :
  process_file filename w = (w', o) -> size (files w') = size (files w).
Proof.
  rewrite process_file_run.
  destruct (files w !! filename) as [content|] eqn:Efile;
    [|intros [= <- _]; reflexivity].
  destruct (identify_institution _ _ w) as [w1 r] eqn:Eid.
  destruct (identify_institution_frame _ _ _ _ _ Eid) as (Hf & _).
  destruct r as [[slug|]|e]; cbn zeta;
    try (intros [= <- _]; cbn; rewrite Hf; reflexivity).
  destruct (files w1 !! target_name (before_dot filename) slug) eqn:Et;
    intros [= <- _]; cbn; [rewrite Hf; reflexivity|].
  rewrite Hf in *.
  rewrite map_size_insert_None.
  - rewrite map_size_delete_Some by eauto.
    destruct (size (files w)) eqn:Es; [|reflexivity].
    apply map_size_empty_iff in Es. rewrite Es, lookup_empty in Efile.
    discriminate.
  - destruct (decide (filename = target_name (before_dot filename) slug))
      as [<-|Hne]; [apply lookup_delete_eq|].
    rewrite lookup_delete_ne; auto.
Qed.

Lemma process_all_size filenames :
  forall w, size (files (fst (process_all filenames w))) = size (files w).
Proof.
  induction filenames as [|f rest IH]; intros w; [reflexivity|].
  rewrite process_all_cons.
  destruct (process_file f w) as [w1 [[]|e]] eqn:Ef.
  - rewrite IH. apply (process_file_size _ _ _ _ Ef).
  - apply (process_file_size _ _ _ _ Ef).
Qed.

(** C8.  A name of the post-naming form does not match the scan
    pattern.  A run of the driver keeps the number of files, moves a file
    at most from its name to the post-naming form of that name, keeps the
    contents of every file of the directory, and leaves every file alone
    whose name does not match the scan pattern; so a file that was named
    once is not renamed by this run or any later one, and no file is ever
    deleted. *)
Theorem renamed_once_never_deleted :
  is_decimal underscore = false ->
  (forall icon_id slug, scan_match (target_name icon_id slug) = false) /\
  (forall w : world, size (files (fst (main w))) = size (files w)) /\
  (forall (w : world) (name : str) (content : bytes),
     files w !! name = Some content ->
     (scan_match name = false ->
        files (fst (main w)) !! name = Some content) /\
     exists name',
       kept_or_named name name' /\
       files (fst (main w)) !! name' = Some content).
Proof.
  intros Hus. split; [intros; apply scan_match_target, Hus|].
  split.
  { intros w. rewrite main_run. destruct (has_dir w); [|reflexivity].
    destruct (List.filter scan_match (names_of w)); [reflexivity|].
    pose proof (process_all_size (worklist (names_of w)) w) as Hs.
    destruct (process_all _ w) as [w' [[]|e]]; exact Hs. }
  intros w name content Hname. rewrite main_run.
  assert (Hsame : (scan_match name = false -> files w !! name = Some content)
                  /\ exists name', kept_or_named name name' /\
                                   files w !! name' = Some content).
  { split; [auto|]. exists name. split; [left; reflexivity|exact Hname]. }
  destruct (has_dir w); [|exact Hsame].
  destruct (List.filter scan_match (names_of w)) eqn:E; [exact Hsame|].
  assert (Hscan : forall f, f ∈ worklist (names_of w) -> scan_match f = true).
  { intros f [_ Hf]%worklist_elem. exact Hf. }
  pose proof (process_all_untouched (worklist (names_of w)) w name content)
    as Hun.
  pose proof (process_all_kept (worklist (names_of w)) Hus w name content
                Hscan Hname) as Hkept.
  destruct (process_all _ w) as [w' [[]|e]]; cbn [fst] in *.
  - split; [|exact Hkept]. intros Hno. apply Hun; [|exact Hname].
    intros Hin. apply Hscan in Hin. congruence.
  - split; [|exact Hkept]. intros Hno. apply Hun; [|exact Hname].
    intros Hin. apply Hscan in Hin. congruence.
Qed.

End Batch.


Example batch_aborts_run :
  snd (@Rename.main sample_runtime search_first_down two_icons_world)
  = Raised (URLError (lit "timed out"))
  /\ files (fst (@Rename.main sample_runtime search_first_down
                   two_icons_world))
     = files two_icons_world.
Proof. vm_compute. split; reflexivity. Qed.

Lemma renamed_once_never_deleted_witness :
  @is_decimal sample_runtime underscore = false /\
  (forall icon_id slug,
     @scan_match sample_runtime (Rename.target_name icon_id slug) = false) /\
  (forall w : world,
     size (files (fst (@Rename.main sample_runtime search_nubank w)))
     = size (files w)) /\
  (forall (w : world) (name : str) (content : bytes),
     files w !! name = Some content ->
     (@scan_match sample_runtime name = false ->
        files (fst (@Rename.main sample_runtime search_nubank w)) !! name
        = Some content) /\
     exists name',
       kept_or_named name name' /\
       files (fst (@Rename.main sample_runtime search_nubank w)) !! name'
       = Some content).
Proof.
  split; [reflexivity|].
  exact (@renamed_once_never_deleted sample_runtime search_nubank eq_refl).
Defined.

(** Two runs in a row: the first names both icons, the second finds
    nothing to rename and leaves the directory as it is. *)
Example second_run_renames_nothing :
  let w1 := fst (@Rename.main sample_runtime search_nubank two_icons_world) in
  let w2 := fst (@Rename.main sample_runtime search_nubank w1) in
  names_of w1 = [lit "202_nubank.svg"; lit "201_nubank.svg"] /\
  files w2 = files w1 /\
  console w2 = console w1 ++ [lit "No SVG files found to rename."].
Proof. vm_compute. repeat split; reflexivity. Qed.

(** ** The scenarios of the specification, run on the model *)

Example extract_hints_title_then_desc :
  @extract_hints sample_runtime
    (lit "<title>Banco Ita" ++ [250] ++ lit "</title><desc>  logo  </desc>")
  = [lit "Banco Ita" ++ [250]; lit "logo"].
Proof. vm_compute. reflexivity. Qed.

Example pick_name_skips_stop_words :
  @pick_name_from_titles sample_runtime
    [lit "Nubank Connector Icons"; lit "Cx"; lit "Banco 24 Horas";
     lit "Nubank - Wikipedia"; lit "Nu Pagamentos connector icon"]
  = Some (lit "Nubank").
Proof. vm_compute. reflexivity. Qed.

Example identify_short_circuits :
  let r := @Rename.identify_institution sample_runtime search_nubank
             (lit "201") [lit "Ita" ++ [250] ++ lit " Unibanco"]
             two_icons_world in
  snd r = Returned (Some (lit "nubank")) /\
  requests (fst r)
  = [lit "https://duckduckgo.com/html/?q=pluggy+connector+201+svg+bank"].
Proof. vm_compute. split; reflexivity. Qed.

Example rename_end_to_end :
  let r := @Rename.main sample_runtime search_nubank collision_world in
  snd r = Returned 0 /\
  console (fst r)
  = [lit "Skipped 201.svg: target exists (201_nubank.svg)."] /\
  files (fst r) = files collision_world.
Proof. vm_compute. repeat split; reflexivity. Qed.

(** ** Clean text: hints and titles *)

Section Clean.
Context `{Runtime}.

Lemma spaced_weaken b s : spaced b s = true -> spaced false s = true.
Proof.
  destruct s as [|c s]; simpl; [reflexivity|].
  destruct (is_space c); [|tauto].
  intros [[Hc _]%andb_prop Hs]%andb_prop. rewrite Hc, Hs. reflexivity.
Qed.

Lemma lit_space : lit " " = [32].
Proof. reflexivity. Qed.

Lemma sub_space_spaced b s :
  spaced b (re_sub_runs is_space [32] b s) = true.
Proof.
  revert b. induction s as [|c s IH]; intros b; cbn [re_sub_runs];
    [reflexivity|].
  destruct (is_space c) eqn:Ec.
  - destruct b; [apply IH|]. cbn [app spaced].
    destruct (is_space 32).
    + rewrite IH. reflexivity.
    + apply (spaced_weaken true), IH.
  - cbn [spaced]. rewrite Ec. apply IH.
Qed.

Lemma lstrip_spaced b s :
  spaced b s = true -> spaced true (lstrip is_space s) = true.
Proof.
  revert b. induction s as [|c s IH]; intros b; simpl; [reflexivity|].
  destruct (is_space c) eqn:Ec.
  - intros [_ Hs]%andb_prop. apply (IH true Hs).
  - intros Hs. cbn [spaced]. rewrite Ec. exact Hs.
Qed.

Lemma spaced_to_end_cons b c s :
  spaced_to_end b (c :: s)
  = if is_space c then (c =? 32) && negb b && spaced_to_end true s
    else spaced_to_end false s.
Proof. reflexivity. Qed.

Lemma rstrip_spaced b s :
  spaced b s = true ->
  rstrip is_space s = [] \/ spaced_to_end b (rstrip is_space s) = true.
Proof.
  revert b. induction s as [|c s IH]; intros b; simpl; [left; reflexivity|].
  destruct (is_space c) eqn:Ec.
  - intros [Hcb Hs]%andb_prop.
    destruct (IH true Hs) as [->|Hacc]; [left; reflexivity|].
    destruct (rstrip is_space s) as [|d t] eqn:Er; [left; reflexivity|].
    right. rewrite spaced_to_end_cons, Ec, Hcb, Hacc. reflexivity.
  - intros Hs. right.
    destruct (IH false Hs) as [->|Hacc].
    + simpl. rewrite Ec. reflexivity.
    + destruct (rstrip is_space s) as [|d t] eqn:Er.
      * simpl. rewrite Ec. reflexivity.
      * rewrite spaced_to_end_cons, Ec, Hacc. reflexivity.
Qed.

Lemma squeeze_shape text :
  squeeze text = [] \/ spaced_to_end true (squeeze text) = true.
Proof.
  unfold squeeze, strip, re_sub_plus. rewrite lit_space.
  apply rstrip_spaced, (lstrip_spaced false), sub_space_spaced.
Qed.

(** What the acceptor says about the characters of a text. *)
Lemma spaced_to_end_inner b s :
  spaced_to_end b s = true ->
  (forall front c, s = front ++ [c] -> is_space c = false) /\
  (forall front c back, s = front ++ c :: back -> is_space c = true ->
     c = 32) /\
  (forall front c d back, s = front ++ c :: d :: back ->
     is_space c = true -> is_space d = false).
Proof.
  revert b. induction s as [|a s IH]; intros b Hacc.
  - repeat split; intros; destruct front; discriminate.
  - rewrite spaced_to_end_cons in Hacc.
    assert (Htail : exists b', spaced_to_end b' s = true
                               /\ (is_space a = true -> b' = true)
                               /\ (is_space a = true -> a = 32)).
    { destruct (is_space a) eqn:Ea.
      - apply andb_prop in Hacc as [[Ha _]%andb_prop Hs].
        exists true. repeat split; auto. intros _. apply N.eqb_eq, Ha.
      - exists false. repeat split; auto; discriminate. }
    destruct Htail as (b' & Hs & Hb' & Ha32).
    destruct (IH b' Hs) as (Hlast & Honly & Hadj).
    split; [|split].
    + intros [|x front] c E.
      * injection E as -> ->. destruct (is_space c) eqn:Ec; [|reflexivity].
        rewrite (Hb' eq_refl) in Hs. discriminate.
      * injection E as -> E. apply (Hlast front c E).
    + intros [|x front] c back E Hc.
      * injection E as -> ->. apply Ha32, Hc.
      * injection E as -> E. apply (Honly front c back E Hc).
    + intros [|x front] c d back E Hc.
      * injection E as -> ->. rewrite (Hb' Hc) in Hs.
        rewrite spaced_to_end_cons in Hs.
        destruct (is_space d); [|reflexivity].
        rewrite andb_false_r in Hs. discriminate.
      * injection E as -> E. apply (Hadj front c d back E Hc).
Qed.

Lemma spaced_to_end_clean s : spaced_to_end true s = true -> clean_text s.
Proof.
  intros Hacc. destruct (spaced_to_end_inner true s Hacc) as (Hl & Ho & Ha).
  split; [intros ->; discriminate|]. split; [|auto].
  intros c rest ->. rewrite spaced_to_end_cons in Hacc.
  destruct (is_space c); [|reflexivity].
  rewrite andb_false_r in Hacc. discriminate.
Qed.

Lemma nonempty_squeezed_clean (g : list N -> list N) (texts : list (list N)) :
  Forall clean_text (nonempty (List.map (fun t => squeeze (g t)) texts)).
Proof.
  apply Forall_forall. intros t Ht. apply list_elem_of_In in Ht.
  unfold nonempty in Ht. apply filter_In in Ht as [Hin Hne].
  apply in_map_iff in Hin as (text & <- & _).
  destruct (squeeze_shape (g text)) as [E|Hacc].
  - rewrite E in Hne. discriminate.
  - apply spaced_to_end_clean, Hacc.
Qed.

(** X1.  Every hint [extract_hints] returns is a clean text: not empty,
    no whitespace at either end, and no whitespace inside but single
    spaces. *)
Theorem extract_hints_clean (svg_content : str) :
  Forall clean_text (extract_hints svg_content).
Proof.
  unfold extract_hints. cbn [List.flat_map]. rewrite app_nil_r.
  apply Forall_app. split; apply (nonempty_squeezed_clean (fun t => t)).
Qed.

End Clean.

Section SearchClient.
Context `{Runtime} `{Network}.
Import Rename.

(** X2.  [fetch_search_results] sends exactly one request, to the search
    URL of the query, and changes nothing else.  It raises exactly what
    the transport raises; any response, whatever its status, is parsed,
    and every title it returns is a clean text. *)
Theorem fetch_search_results_clean (query : str) (w : world) :
  fst (fetch_search_results query w) = log_request (search_url query) w /\
  match snd (fetch_search_results query w) with
  | Returned titles =>
      Forall clean_text titles /\
      exists status body,
        reply_to (length (requests w)) (search_url query)
        = Responds status body
  | Raised e =>
      reply_to (length (requests w)) (search_url query) = Refuses e
  end.
Proof.
  rewrite fetch_search_results_run.
  destruct (reply_to _ _) as [status body|e]; cbn [fst snd].
  - split; [reflexivity|]. split; [|eauto].
    unfold titles_of_page. apply nonempty_squeezed_clean.
  - split; reflexivity.
Qed.

End SearchClient.

(** ** The driver, file by file *)

Section DriverPaths.
Context `{Runtime} `{Network}.
Import Rename.

Lemma target_name_ne filename slug :
  target_name (before_dot filename) slug <> filename.
Proof.
  unfold target_name. change (lit "_") with [underscore].
  induction filename as [|c filename IH]; cbn [before_dot app];
    [discriminate|].
  destruct (c =? 46) eqn:Ec.
  - apply N.eqb_eq in Ec. subst c. cbn [app]. intros E. discriminate E.
  - cbn [app]. intros [= E]. apply IH, E.
Qed.

(** X3.  When the orchestrator names a slug and no file has the target
    name, the driver moves the file: its content is then under
    [<identifier>_<slug>.svg], the old name is gone, every other file is
    as it was, the rename is reported and the driver pauses one second. *)
Theorem rename_moves_file (filename : str) (content : bytes)
    (w w1 : world) (slug : str) :
  files w !! filename = Some content ->
  identify_institution (before_dot filename)
    (extract_hints (read_text content)) w = (w1, Returned (Some slug)) ->
  files w !! target_name (before_dot filename) slug = None ->
  let new_name := target_name (before_dot filename) slug in
  let w' := fst (process_file filename w) in
  snd (process_file filename w) = Returned tt /\
  files w' !! new_name = Some content /\
  files w' !! filename = None /\
  (forall other, other <> filename -> other <> new_name ->
     files w' !! other = files w !! other) /\
  console w' = console w ++ [msg_renamed filename new_name] /\
  slept w' = (slept w1 + 1)%nat.
Proof.
  intros Hfile Hid Hfree. cbv zeta.
  destruct (identify_institution_frame _ _ _ _ _ Hid) as (Hf & _ & Hc & _).
  rewrite process_file_run, Hfile, Hid. cbv zeta. rewrite Hf, Hfree.
  cbn [fst snd add_sleep log_line set_files files console slept].
  split; [reflexivity|]. split; [apply lookup_insert_eq|].
  split; [|split; [|split]].
  - rewrite lookup_insert_ne by apply target_name_ne.
    apply lookup_delete_eq.
  - intros other Hne1 Hne2.
    rewrite lookup_insert_ne by congruence.
    apply lookup_delete_ne. congruence.
  - rewrite Hc. reflexivity.
  - reflexivity.
Qed.

(** X4.  When the orchestrator finds no slug, the driver reports the file
    as skipped and leaves the directory as it is. *)
Theorem no_match_skip (filename : str) (content : bytes) (w w1 : world) :
  files w !! filename = Some content ->
  identify_institution (before_dot filename)
    (extract_hints (read_text content)) w = (w1, Returned None) ->
  process_file filename w = (log_line (msg_no_match filename) w1, Returned tt)
  /\ files (fst (process_file filename w)) = files w
  /\ console (fst (process_file filename w))
     = console w ++ [msg_no_match filename].
Proof.
  intros Hfile Hid.
  destruct (identify_institution_frame _ _ _ _ _ Hid) as (Hf & _ & Hc & _).
  rewrite process_file_run, Hfile, Hid. cbn [fst log_line files console].
  rewrite Hf, Hc. auto.
Qed.

Lemma filter_none (p : list N -> bool) (l : list (list N)) :
  (forall x, x ∈ l -> p x = false) -> List.filter p l = [].
Proof.
  induction l as [|x l IH]; intros Hall; [reflexivity|]. cbn [List.filter].
  rewrite (Hall x) by left. apply IH. intros y Hy. apply Hall. right.
  exact Hy.
Qed.

(** X5.  The renaming program ends with status 1 exactly when the
    directory is missing, and with status 0 whenever it ends normally
    with the directory present.  With the directory missing, or with no
    file name matching the scan pattern, it prints one line, sends no
    request and touches no file. *)
Theorem main_without_work (w : world) :
  (has_dir w = false ->
     main w
     = (log_line (lit "Directory 'connector-icons' not found.") w,
        Returned 1)) /\
  (has_dir w = true ->
     (forall name, is_Some (files w !! name) -> scan_match name = false) ->
     main w = (log_line (lit "No SVG files found to rename.") w, Returned 0))
  /\
  (forall w' status,
     main w = (w', Returned status) ->
     status = if has_dir w then 0 else 1).
Proof.
  rewrite main_run. split; [|split].
  - intros ->. reflexivity.
  - intros -> Hnone. rewrite filter_none; [reflexivity|].
    intros name Hname. apply Hnone, names_of_elem, Hname.
  - intros w' status. destruct (has_dir w); [|intros [= _ <-]; reflexivity].
    destruct (List.filter scan_match (names_of w));
      [intros [= _ <-]; reflexivity|].
    destruct (process_all _ w) as [w2 [[]|e]]; [|discriminate].
    intros [= _ <-]. reflexivity.
Qed.

Lemma queries_for_length icon_id hints :
  (1 <= length (queries_for icon_id hints) <= 2)%nat.
Proof. unfold queries_for. destruct hints; cbn; lia. Qed.

Lemma identify_institution_budget icon_id hints w w1 r :
  identify_institution icon_id hints w = (w1, r) ->
  (length (requests w) + 1 <= length (requests w1)
   <= length (requests w) + 2)%nat /\
  (slept w1 <= slept w + 2)%nat /\
  (forall slug, r = Returned (Some slug) ->
     (slept w1 <= slept w + 1)%nat /\ is_slug slug = true).
Proof.
  intros E. pose proof (try_queries_spec (queries_for icon_id hints) w) as Hs.
  pose proof (queries_for_length icon_id hints) as Hlen.
  unfold identify_institution in E. rewrite E in Hs. cbn [fst snd] in Hs.
  destruct Hs as (_ & _ & _ & Hr).
  assert (Hfound :
    (exists earlier query later,
       queries_for icon_id hints = earlier ++ query :: later /\
       requests w1
       = requests w ++ List.map search_url (earlier ++ [query]) /\
       slept w1 = (slept w + length earlier)%nat /\
       (forall i q, earlier !! i = Some q ->
          query_result (length (requests w) + i) q = Returned None) /\
       query_result (length (requests w) + length earlier) query = r /\
       match r with
       | Returned (Some slug) => slug <> [] /\ is_slug slug = true
       | _ => True
       end) ->
    (length (requests w) + 1 <= length (requests w1)
     <= length (requests w) + 2)%nat /\
    (slept w1 <= slept w + 2)%nat /\
    (forall slug, r = Returned (Some slug) ->
       (slept w1 <= slept w + 1)%nat /\ is_slug slug = true)).
  { intros (earlier & q & later & Eq & Hreq & Hsl & _ & _ & Hok).
    rewrite Eq in Hlen. rewrite length_app in Hlen. cbn [length] in Hlen.
    rewrite Hreq, Hsl, length_app, length_map, length_app. cbn [length].
    split; [lia|]. split; [lia|]. intros slug ->. split; [lia|tauto]. }
  destruct r as [[slug|]|e]; [apply Hfound, Hr| |apply Hfound, Hr].
  destruct Hr as (Hreq & Hsl & _).
  rewrite Hreq, Hsl, length_app, length_map.
  split; [lia|]. split; [lia|]. intros slug [=].
Qed.

Lemma process_file_budget filename w w' o :
  process_file filename w = (w', o) ->
  (length (requests w') <= length (requests w) + 2)%nat /\
  (slept w' <= slept w + 2)%nat.
Proof.
  rewrite process_file_run.
  destruct (files w !! filename) as [content|];
    [|intros [= <- _]; lia].
  destruct (identify_institution _ _ w) as [w1 r] eqn:Eid.
  destruct (identify_institution_budget _ _ _ _ _ Eid) as (Hr & Hs & Hfound).
  destruct r as [[slug|]|e]; cbn zeta;
    try (intros [= <- _]; cbn; lia).
  destruct (Hfound slug eq_refl) as [Hs1 _].
  destruct (files w1 !! target_name (before_dot filename) slug);
    intros [= <- _]; cbn; lia.
Qed.

Lemma process_all_budget filenames :
  forall w,
    (length (requests (fst (process_all filenames w)))
     <= length (requests w) + 2 * length filenames)%nat /\
    (slept (fst (process_all filenames w))
     <= slept w + 2 * length filenames)%nat.
Proof.
  induction filenames as [|f rest IH]; intros w; [cbn; lia|].
  rewrite process_all_cons.
  destruct (process_file f w) as [w1 o] eqn:Ef.
  destruct (process_file_budget _ _ _ _ Ef) as [Hr Hs].
  destruct o as [[]|e]; cbn [fst length].
  - destruct (IH w1). lia.
  - lia.
Qed.

(** X6.  One run of the renaming program sends at most two search
    requests and sleeps at most two seconds for every file of its list. *)
Theorem main_request_budget (w : world) :
  (length (requests (fst (main w)))
   <= length (requests w) + 2 * length (worklist (names_of w)))%nat /\
  (slept (fst (main w))
   <= slept w + 2 * length (worklist (names_of w)))%nat.
Proof.
  rewrite main_run. destruct (has_dir w); [|cbn; lia].
  destruct (List.filter scan_match (names_of w)); [cbn; lia|].
  pose proof (process_all_budget (worklist (names_of w)) w) as Hb.
  destruct (process_all _ w) as [w' [[]|e]]; exact Hb.
Qed.

Lemma process_file_new_name filename w w' o name :
  process_file filename w = (w', o) ->
  files w !! name = None ->
  is_Some (files w' !! name) ->
  exists slug,
    is_slug slug = true /\ name = target_name (before_dot filename) slug.
Proof.
  rewrite process_file_run. intros E Hnew [c Hc].
  destruct (files w !! filename) as [content|];
    [|injection E as <- _; congruence].
  destruct (identify_institution _ _ w) as [w1 r] eqn:Eid.
  destruct (identify_institution_frame _ _ _ _ _ Eid) as (Hf & _).
  destruct (identify_institution_budget _ _ _ _ _ Eid) as (_ & _ & Hfound).
  rewrite <- Hf in Hnew.
  destruct r as [[slug|]|e]; cbn zeta in E;
    try (injection E as <- _; cbn in Hc; congruence).
  destruct (files w1 !! target_name (before_dot filename) slug) eqn:Et;
    injection E as <- _; cbn in Hc; [congruence|].
  exists slug. split; [apply (Hfound slug eq_refl)|].
  destruct (decide (name = target_name (before_dot filename) slug))
    as [->|Hne]; [reflexivity|].
  rewrite lookup_insert_ne in Hc by congruence.
  destruct (decide (name = filename)) as [->|Hne2].
  - rewrite lookup_delete_eq in Hc. discriminate.
  - rewrite lookup_delete_ne in Hc by congruence. congruence.
Qed.

Lemma process_all_new_name filenames :
  forall w name,
    files w !! name = None ->
    is_Some (files (fst (process_all filenames w)) !! name) ->
    exists filename slug,
      filename ∈ filenames /\ is_slug slug = true /\
      name = target_name (before_dot filename) slug.
Proof.
  induction filenames as [|f rest IH]; intros w name Hnew Hthere.
  - cbn in Hthere. rewrite Hnew in Hthere. destruct Hthere. discriminate.
  - rewrite process_all_cons in Hthere.
    destruct (process_file f w) as [w1 o] eqn:Ef.
    destruct (files w1 !! name) as [c|] eqn:E1.
    + destruct (process_file_new_name _ _ _ _ name Ef Hnew)
        as (slug & Hs & ->); [eauto|].
      exists f, slug. split; [left|auto].
    + destruct o as [[]|e]; cbn [fst] in Hthere.
      * destruct (IH w1 name E1 Hthere) as (g & slug & Hg & Hs & ->).
        exists g, slug. split; [right; exact Hg|auto].
      * rewrite E1 in Hthere. destruct Hthere. discriminate.
Qed.

(** X7.  A file name that is in the directory after a run of the renaming
    program and was not there before is the identifier part of a scanned
    file, an underscore, a slug matching [[a-z0-9]+(_[a-z0-9]+)*], and
    [.svg]. *)
Theorem main_new_names (w : world) (name : str) :
  files w !! name = None ->
  is_Some (files (fst (main w)) !! name) ->
  exists filename slug,
    filename ∈ worklist (names_of w) /\
    matches slug_regex slug /\
    name = before_dot filename ++ lit "_" ++ slug ++ lit ".svg".
Proof.
  intros Hnew. rewrite main_run.
  assert (Hsame : is_Some (files w !! name) ->
                  exists filename slug,
                    filename ∈ worklist (names_of w) /\
                    matches slug_regex slug /\
                    name = before_dot filename ++ lit "_" ++ slug
                           ++ lit ".svg").
  { rewrite Hnew. intros [? ?]. discriminate. }
  destruct (has_dir w); [|exact Hsame].
  destruct (List.filter scan_match (names_of w)); [exact Hsame|].
  pose proof (process_all_new_name (worklist (names_of w)) w name Hnew) as Hp.
  destruct (process_all _ w) as [w' [[]|e]]; cbn [fst] in *;
    intros Hthere; destruct (Hp Hthere) as (f & slug & Hf & Hs & ->);
    exists f, slug; (split; [exact Hf|]);
    (split; [apply slug_accept_matches, Hs|reflexivity]).
Qed.

End DriverPaths.

Lemma rename_moves_file_witness :
  let filename := lit "201.svg" in
  let w1 :=
    log_request
      (@search_url sample_runtime (lit "pluggy connector 201 svg bank"))
      two_icons_world in
  let w' := fst (@Rename.process_file sample_runtime search_nubank filename
                   two_icons_world) in
  files two_icons_world !! filename = Some nubank_svg /\
  files two_icons_world !! lit "201_nubank.svg" = None /\
  snd (@Rename.process_file sample_runtime search_nubank filename
         two_icons_world) = Returned tt /\
  files w' !! Rename.target_name (before_dot filename) (lit "nubank")
  = Some nubank_svg /\
  files w' !! filename = None /\
  (forall other, other <> filename ->
     other <> Rename.target_name (before_dot filename) (lit "nubank") ->
     files w' !! other = files two_icons_world !! other) /\
  console w'
  = console two_icons_world
    ++ [Rename.msg_renamed filename
          (Rename.target_name (before_dot filename) (lit "nubank"))] /\
  slept w' = (slept w1 + 1)%nat.
Proof.
  intros filename w1 w'.
  assert (Hfile : files two_icons_world !! filename = Some nubank_svg)
    by (vm_compute; reflexivity).
  assert (Hid : @Rename.identify_institution sample_runtime search_nubank
                  (before_dot filename)
                  (@extract_hints sample_runtime
                     (@read_text sample_runtime nubank_svg))
                  two_icons_world
                = (w1, Returned (Some (lit "nubank"))))
    by (vm_compute; reflexivity).
  assert (Hfree : files two_icons_world
                  !! Rename.target_name (before_dot filename) (lit "nubank")
                  = None)
    by (vm_compute; reflexivity).
  split; [exact Hfile|]. split; [exact Hfree|].
  exact (@rename_moves_file sample_runtime search_nubank filename nubank_svg
           two_icons_world w1 (lit "nubank") Hfile Hid Hfree).
Defined.

Lemma no_match_skip_witness :
  let filename := lit "202.svg" in
  let report := Rename.msg_no_match filename in
  exists w1,
    files two_icons_world !! filename = Some (lit "<svg/>") /\
    @Rename.identify_institution sample_runtime search_nothing
      (before_dot filename)
      (@extract_hints sample_runtime (@read_text sample_runtime (lit "<svg/>")))
      two_icons_world = (w1, Returned None) /\
    @Rename.process_file sample_runtime search_nothing filename
      two_icons_world = (log_line report w1, Returned tt) /\
    files (fst (@Rename.process_file sample_runtime search_nothing filename
                  two_icons_world)) = files two_icons_world /\
    console (fst (@Rename.process_file sample_runtime search_nothing filename
                    two_icons_world))
    = console two_icons_world ++ [report].
Proof.
  intros filename report.
  set (w1 := fst (@Rename.identify_institution sample_runtime search_nothing
                    (before_dot filename)
                    (@extract_hints sample_runtime
                       (@read_text sample_runtime (lit "<svg/>")))
                    two_icons_world)).
  assert (Hfile : files two_icons_world !! filename = Some (lit "<svg/>"))
    by (vm_compute; reflexivity).
  assert (Hid : @Rename.identify_institution sample_runtime search_nothing
                  (before_dot filename)
                  (@extract_hints sample_runtime
                     (@read_text sample_runtime (lit "<svg/>")))
                  two_icons_world
                = (w1, Returned None))
    by (vm_compute; reflexivity).
  exists w1. split; [exact Hfile|]. split; [exact Hid|].
  exact (@no_match_skip sample_runtime search_nothing filename (lit "<svg/>")
           two_icons_world w1 Hfile Hid).
Defined.

Lemma main_new_names_witness :
  files two_icons_world !! lit "201_nubank.svg" = None /\
  is_Some (files (fst (@Rename.main sample_runtime search_nubank
                         two_icons_world)) !! lit "201_nubank.svg") /\
  exists filename slug,
    filename ∈ @Rename.worklist sample_runtime (names_of two_icons_world) /\
    matches slug_regex slug /\
    lit "201_nubank.svg" = before_dot filename ++ lit "_" ++ slug ++ lit ".svg".
Proof.
  assert (Hnew : files two_icons_world !! lit "201_nubank.svg" = None)
    by (vm_compute; reflexivity).
  assert (Hthere : is_Some (files (fst (@Rename.main sample_runtime
                                          search_nubank two_icons_world))
                            !! lit "201_nubank.svg"))
    by (vm_compute; eauto).
  split; [exact Hnew|]. split; [exact Hthere|].
  exact (@main_new_names sample_runtime search_nubank two_icons_world
           (lit "201_nubank.svg") Hnew Hthere).
Defined.

(** ** The scan pattern and the order of the batch *)

Section Order.
Context `{Runtime}.
Import Rename.

Lemma starts_with_refl s : starts_with s s = true.
Proof. apply starts_with_iff. exists []. symmetry. apply app_nil_r. Qed.

Lemma remove_suffix_app digits suffix :
  remove_suffix suffix (digits ++ suffix) = Some digits.
Proof.
  unfold remove_suffix. rewrite length_app.
  replace (length digits + length suffix - length suffix)%nat
    with (length digits) by lia.
  rewrite drop_app_length, take_app_length.
  unfold str_eqb. rewrite starts_with_refl, Nat.eqb_refl. reflexivity.
Qed.

(** X8.  A file name is scanned exactly when it consists of one or more
    decimal digits followed by [.svg], or by [.svg] and one final
    newline. *)
Theorem scan_match_iff (name : str) :
  scan_match name = true <->
  exists digits,
    digits <> [] /\ forallb is_decimal digits = true /\
    (name = digits ++ lit ".svg" \/ name = digits ++ lit ".svg" ++ [10]).
Proof.
  unfold scan_match. cbn [existsb]. rewrite orb_false_r, orb_true_iff.
  split.
  - intros [Hm|Hm].
    + destruct (remove_suffix (lit ".svg") name) as [digits|] eqn:E;
        [|discriminate].
      apply andb_prop in Hm as [Hne Hd].
      exists digits. split; [|split; [exact Hd|]].
      * intros ->. discriminate.
      * left. apply remove_suffix_some, E.
    + destruct (remove_suffix (lit ".svg" ++ [10]) name) as [digits|] eqn:E;
        [|discriminate].
      apply andb_prop in Hm as [Hne Hd].
      exists digits. split; [|split; [exact Hd|]].
      * intros ->. discriminate.
      * right. apply remove_suffix_some, E.
  - intros (digits & Hne & Hd & [->| ->]); [left|right];
      rewrite remove_suffix_app, Hd, andb_true_r;
      apply negb_true_iff, bool_decide_eq_false_2, Hne.
Qed.

Lemma insert_by_key_sorted (key : list N -> N) x l :
  StronglySorted (fun a b => key a <= key b) l ->
  StronglySorted (fun a b => key a <= key b) (insert_by_key key x l).
Proof.
  induction l as [|y l IH]; intros Hs; cbn [insert_by_key].
  - repeat constructor.
  - apply StronglySorted_inv in Hs as [Hl Hy].
    destruct (key x <=? key y) eqn:E.
    + apply N.leb_le in E. constructor; [constructor; assumption|].
      constructor; [exact E|].
      eapply Forall_impl; [exact Hy|]. intros z Hz. cbn in *. lia.
    + apply N.leb_gt in E. constructor; [apply IH, Hl|].
      rewrite insert_by_key_perm. constructor; [lia|exact Hy].
Qed.

Lemma sorted_by_key_sorted (key : list N -> N) l :
  StronglySorted (fun a b => key a <= key b) (sorted_by_key key l).
Proof.
  induction l as [|x l IH]; cbn; [constructor|].
  apply insert_by_key_sorted, IH.
Qed.

(** X9.  The driver visits exactly the listed names that match the scan
    pattern, each as often as it is listed, in ascending order of the
    number before the first dot. *)
Theorem worklist_sorted (names : list str) :
  worklist names ≡ₚ List.filter scan_match names /\
  StronglySorted (fun a b => icon_key a <= icon_key b) (worklist names).
Proof.
  split; [apply sorted_by_key_perm|].
  apply (sorted_by_key_sorted icon_key).
Qed.

Lemma uint_digits (d : Decimal.uint) :
  Forall (fun c => 48 <= c <= 57) (lit (NilEmpty.string_of_uint d)).
Proof.
  unfold lit.
  induction d; cbn [NilEmpty.string_of_uint list_ascii_of_string List.map];
    constructor; try assumption; vm_compute; split; discriminate.
Qed.

Lemma to_uint_not_nil n : N.to_uint n <> Decimal.Nil.
Proof.
  intros E. pose proof (DecimalN.Unsigned.of_to n) as Hn.
  rewrite E in Hn. cbn in Hn. subst n. discriminate E.
Qed.

Lemma str_of_N_digits n :
  str_of_N n <> [] /\ Forall (fun c => 48 <= c <= 57) (str_of_N n).
Proof.
  unfold str_of_N. split; [|apply uint_digits].
  pose proof (to_uint_not_nil n) as Hn.
  destruct (N.to_uint n); try contradiction; discriminate.
Qed.

Lemma before_dot_digits (digits rest : list N) :
  Forall (fun c => 48 <= c <= 57) digits ->
  before_dot (digits ++ 46 :: rest) = digits.
Proof.
  induction 1 as [|c digits Hc _ IH]; cbn [app before_dot].
  - reflexivity.
  - destruct (c =? 46) eqn:E; [apply N.eqb_eq in E; lia|].
    rewrite IH. reflexivity.
Qed.

Lemma scan_match_digits digits :
  digits <> [] -> forallb is_decimal digits = true ->
  scan_match (digits ++ lit ".svg") = true.
Proof.
  intros Hne Hd. unfold scan_match. cbn [existsb].
  rewrite remove_suffix_app, Hd, andb_true_r.
  rewrite bool_decide_eq_false_2 by exact Hne. reflexivity.
Qed.

Lemma before_dot_output_name n :
  before_dot (Download.output_name n) = str_of_N n.
Proof.
  unfold Download.output_name. change (lit ".svg") with (46 :: lit "svg").
  apply before_dot_digits, str_of_N_digits.
Qed.

Lemma output_name_scanned n :
  ascii_digits_decimal -> scan_match (Download.output_name n) = true.
Proof.
  intros Hdec. destruct (str_of_N_digits n) as [Hne Hdigits].
  apply scan_match_digits; [exact Hne|].
  apply forallb_forall. intros c Hc. apply Hdec.
  rewrite List.Forall_forall in Hdigits. apply Hdigits, Hc.
Qed.

(** X10.  Every file name the fetcher writes matches the scan pattern of
    the renaming program, and the identifier the renaming program takes
    from it is the decimal text of the fetched id. *)
Theorem fetched_names_are_scanned (icon_id : N) :
  ascii_digits_decimal ->
  scan_match (Download.output_name icon_id) = true /\
  before_dot (Download.output_name icon_id) = str_of_N icon_id.
Proof.
  intros Hdec. destruct (str_of_N_digits icon_id) as [Hne Hdigits].
  unfold Download.output_name. split.
  - apply scan_match_digits; [exact Hne|].
    apply forallb_forall. intros c Hc. apply Hdec.
    rewrite List.Forall_forall in Hdigits. apply Hdigits, Hc.
  - change (lit ".svg") with (46 :: lit "svg").
    apply before_dot_digits, Hdigits.
Qed.

End Order.

Lemma sample_ascii_digits_decimal : @ascii_digits_decimal sample_runtime.
Proof.
  intros c Hc. cbn. unfold sample_is_digit.
  apply andb_true_intro. split; apply N.leb_le; lia.
Qed.

Lemma fetched_names_are_scanned_witness :
  @ascii_digits_decimal sample_runtime /\
  @scan_match sample_runtime (Download.output_name 201) = true /\
  before_dot (Download.output_name 201) = str_of_N 201.
Proof.
  split; [exact sample_ascii_digits_decimal|].
  exact (@fetched_names_are_scanned sample_runtime 201
           sample_ascii_digits_decimal).
Defined.

(** ** From the fetcher to the renaming program *)

Section FetchThenScan.
Context `{Runtime} `{Network}.
Import Rename.

Lemma strictly_sorted_NoDup (key : list N -> N) (l : list (list N)) :
  StronglySorted (fun a b => key a < key b) l -> NoDup l.
Proof.
  induction 1 as [|a l _ IH Ha]; constructor; [|exact IH].
  intros Hin. rewrite Forall_forall in Ha. specialize (Ha a Hin). lia.
Qed.

Lemma sorted_perm_unique (key : list N -> N) (l1 : list (list N)) :
  forall l2,
    l1 ≡ₚ l2 ->
    StronglySorted (fun a b => key a < key b) l1 ->
    StronglySorted (fun a b => key a <= key b) l2 ->
    l1 = l2.
Proof.
  induction l1 as [|a l1 IH]; intros l2 Hp H1 H2.
  - apply Permutation_nil_l in Hp. congruence.
  - destruct l2 as [|b l2].
    { apply Permutation_nil_r in Hp. discriminate. }
    apply StronglySorted_inv in H1 as [H1 Ha].
    apply StronglySorted_inv in H2 as [H2 Hb].
    rewrite Forall_forall in Ha, Hb.
    assert (E : a = b).
    { destruct (decide (a = b)) as [E|Hne]; [exact E|exfalso].
      assert (Ha2 : a ∈ b :: l2) by (rewrite <- Hp; left).
      assert (Hb1 : b ∈ a :: l1) by (rewrite Hp; left).
      apply elem_of_cons in Ha2 as [?|Ha2]; [contradiction|].
      apply elem_of_cons in Hb1 as [?|Hb1]; [congruence|].
      specialize (Ha b Hb1). specialize (Hb a Ha2). lia. }
    subst b. f_equal. apply IH; [|assumption..].
    eapply Permutation_cons_inv, Hp.
Qed.

Lemma ids_from_elem start count n :
  n ∈ ids_from start count <->
  exists i, (i < count)%nat /\ n = start + N.of_nat i.
Proof.
  unfold ids_from. rewrite list_elem_of_In, in_map_iff. split.
  - intros (i & <- & Hi%in_seq). exists i. split; [lia|reflexivity].
  - intros (i & Hi & ->). exists i. split; [reflexivity|].
    apply in_seq. lia.
Qed.

Lemma icon_key_output_name n :
  int_inverts_str -> icon_key (Download.output_name n) = n.
Proof.
  intros Hint. unfold icon_key. rewrite before_dot_output_name. apply Hint.
Qed.

Lemma fetched_names_sorted count :
  ascii_digits_decimal -> int_inverts_str ->
  forall start,
    StronglySorted (fun a b => icon_key a < icon_key b)
      (List.map Download.output_name (ids_from start count)).
Proof.
  intros Hdec Hint. induction count as [|count IH]; intros start.
  - constructor.
  - rewrite ids_from_succ. cbn [List.map]. constructor; [apply IH|].
    apply Forall_forall. intros name Hname.
    apply list_elem_of_In, in_map_iff in Hname as (n & <- & Hn).
    apply list_elem_of_In, ids_from_elem in Hn as (i & _ & ->).
    rewrite !icon_key_output_name by assumption. lia.
Qed.

(** X11.  Start the fetcher in an empty directory, let the CDN deliver
    the icons [201] to [201 + k - 1] and fail on the next one.  Then the
    work list of the renaming program on the directory the fetcher leaves
    is exactly [201.svg], [202.svg], ..., in ascending order of the id. *)
Theorem fetch_then_scan (w : world) (k fuel : nat) (body : nat -> bytes) :
  ascii_digits_decimal -> int_inverts_str ->
  files w = ∅ ->
  (forall i, (i < k)%nat ->
     reply_to (length (requests w) + i)
       (Download.BASE_URL (201 + N.of_nat i))
     = Responds 200 (body i)) ->
  failed_reply
    (reply_to (length (requests w) + k)
       (Download.BASE_URL (201 + N.of_nat k)))
  = true ->
  (k < fuel)%nat ->
  worklist (names_of (fst (Download.main fuel w)))
  = List.map Download.output_name (ids_from 201 k).
Proof.
  intros Hdec Hint Hempty Hok Hfail Hfuel.
  set (w0 := World true (files w) (requests w) (console w) (slept w)).
  destruct (download_from_run k fuel 201 w0 body eq_refl Hok Hfail Hfuel)
    as (w' & E & _ & Hfiles & Hframe).
  assert (Em : fst (Download.main fuel w) = w').
  { unfold Download.main, makedirs, mbind, M_bind. fold w0.
    rewrite E. reflexivity. }
  rewrite Em. symmetry.
  pose proof (fetched_names_sorted k Hdec Hint 201) as Hsorted.
  apply (sorted_perm_unique icon_key); [|exact Hsorted|].
  - apply NoDup_Permutation.
    + apply (strictly_sorted_NoDup icon_key), Hsorted.
    + apply worklist_NoDup, names_of_NoDup.
    + intros name. rewrite worklist_elem, names_of_elem. split.
      * intros Hin. apply list_elem_of_In, in_map_iff in Hin
          as (n & <- & Hn).
        apply list_elem_of_In, ids_from_elem in Hn as (i & Hi & ->).
        split; [rewrite (Hfiles i Hi); eauto|].
        apply output_name_scanned, Hdec.
      * intros [[c Hc] _].
        destruct (decide (name ∈ List.map Download.output_name
                                   (ids_from 201 k))) as [Hin|Hout];
          [exact Hin|exfalso].
        rewrite Hframe in Hc.
        -- subst w0. cbn [files] in Hc. rewrite Hempty in Hc.
           rewrite lookup_empty in Hc. discriminate.
        -- intros i Hi ->. apply Hout.
           apply list_elem_of_In, in_map_iff. eexists. split; [reflexivity|].
           apply list_elem_of_In, ids_from_elem. eauto.
  - apply (sorted_by_key_sorted icon_key).
Qed.

End FetchThenScan.

Lemma sample_int_acc (d : Decimal.uint) :
  forall acc : positive,
    List.fold_left (fun a c => 10 * a + (c - 48))
      (lit (NilEmpty.string_of_uint d)) (Npos acc)
    = Npos (Pos.of_uint_acc d acc).
Proof.
  unfold lit.
  induction d; intros acc;
    cbn [NilEmpty.string_of_uint list_ascii_of_string List.map List.fold_left
         Pos.of_uint_acc];
    try reflexivity;
    match goal with
    | |- List.fold_left _ _ ?a = _ =>
        let p := fresh "p" in
        evar (p : positive);
        replace a with (Npos p); [subst p; apply IHd|subst p]
    end; vm_compute N_of_ascii; lia.
Qed.

Lemma sample_int_of_uint (d : Decimal.uint) :
  List.fold_left (fun a c => 10 * a + (c - 48))
    (lit (NilEmpty.string_of_uint d)) 0
  = N.of_uint d.
Proof.
  unfold N.of_uint, lit.
  induction d;
    cbn [NilEmpty.string_of_uint list_ascii_of_string List.map List.fold_left
         Pos.of_uint];
    try reflexivity; try exact IHd;
    match goal with
    | |- List.fold_left _ ?l ?a = _ =>
        let p := fresh "p" in
        evar (p : positive);
        replace a with (Npos p);
        [subst p; apply (sample_int_acc d)|subst p]
    end; vm_compute N_of_ascii; lia.
Qed.

Lemma sample_int_inverts_str : @int_inverts_str sample_runtime.
Proof.
  intros n. cbn. unfold str_of_N. rewrite sample_int_of_uint.
  apply DecimalN.Unsigned.of_to.
Qed.

Lemma fetch_then_scan_witness :
  @ascii_digits_decimal sample_runtime /\ @int_inverts_str sample_runtime /\
  files empty_world = ∅ /\
  @Rename.worklist sample_runtime
    (names_of (fst (@Download.main cdn_five 10 empty_world)))
  = List.map Download.output_name (ids_from 201 5).
Proof.
  split; [exact sample_ascii_digits_decimal|].
  split; [exact sample_int_inverts_str|]. split; [reflexivity|].
  apply (@fetch_then_scan sample_runtime cdn_five empty_world 5 10
           (fun i => lit "<svg/>" ++ [N.of_nat i])
           sample_ascii_digits_decimal sample_int_inverts_str eq_refl).
  - intros i Hi. simpl.
    destruct (Nat.ltb_spec i 5) as [_|Hge]; [reflexivity|lia].
  - reflexivity.
  - lia.
Defined.

(** ** The fetcher on any network *)

Section FetcherAny.
Context `{Network}.
Import Download.

Lemma download_svg_run icon_id w :
  download_svg icon_id w
  = match reply_to (length (requests w)) (BASE_URL icon_id) with
    | Responds status body =>
        if status =? 200 then
          if has_dir w then
            (set_files (<[output_name icon_id := body]> (files w))
               (log_request (BASE_URL icon_id) w),
             Returned true)
          else
            (log_request (BASE_URL icon_id) w,
             Raised (FileNotFoundError (output_name icon_id)))
        else (log_request (BASE_URL icon_id) w, Returned false)
    | Refuses HTTPError => (log_request (BASE_URL icon_id) w, Returned false)
    | Refuses (URLError reason) =>
        (log_line
           (lit "Network error while fetching " ++ BASE_URL icon_id
            ++ lit ": " ++ str_of_URLError reason)
           (log_request (BASE_URL icon_id) w),
         Returned false)
    | Refuses (FileNotFoundError path) =>
        (log_request (BASE_URL icon_id) w, Raised (FileNotFoundError path))
    end.
Proof.
  unfold download_svg, catch, urlopen, print, write_file, raise,
    mbind, M_bind, mret, M_ret.
  destruct (reply_to _ _) as [status body|[|reason|path]]; cbn;
    try reflexivity.
  destruct (status =? 200); cbn; [|reflexivity].
  destruct (has_dir w); reflexivity.
Qed.

(** X12.  On a reply with status 200, [download_svg] stores the body
    under [<id>.svg], replacing what was there, leaves every other file
    and the console alone and returns [True].  It does not create the
    directory: without it the write raises and no file changes. *)
Theorem download_svg_writes_body (w : world) (icon_id : N) (body : bytes) :
  reply_to (length (requests w)) (BASE_URL icon_id) = Responds 200 body ->
  (has_dir w = true ->
     snd (download_svg icon_id w) = Returned true /\
     files (fst (download_svg icon_id w)) !! output_name icon_id
     = Some body /\
     (forall other, other <> output_name icon_id ->
        files (fst (download_svg icon_id w)) !! other = files w !! other) /\
     console (fst (download_svg icon_id w)) = console w) /\
  (has_dir w = false ->
     snd (download_svg icon_id w)
     = Raised (FileNotFoundError (output_name icon_id)) /\
     files (fst (download_svg icon_id w)) = files w).
Proof.
  intros Hreply. rewrite download_svg_run, Hreply. cbn [N.eqb Pos.eqb].
  split; intros ->; cbn.
  - split; [reflexivity|]. split; [apply lookup_insert_eq|].
    split; [|reflexivity].
    intros other Hne. apply lookup_insert_ne. congruence.
  - split; reflexivity.
Qed.

(** X13.  [download_svg] always sends exactly one request and never
    sleeps.  It prints a line only for a network error that is not an
    HTTP error, and the line ends with the text of the exception,
    [<urlopen error REASON>]; a status other than 200 and an HTTP error
    are silent. *)
Theorem download_svg_console (w : world) (icon_id : N) :
  requests (fst (download_svg icon_id w))
  = requests w ++ [BASE_URL icon_id] /\
  slept (fst (download_svg icon_id w)) = slept w /\
  console (fst (download_svg icon_id w))
  = match reply_to (length (requests w)) (BASE_URL icon_id) with
    | Refuses (URLError reason) =>
        console w
        ++ [lit "Network error while fetching " ++ BASE_URL icon_id
            ++ lit ": <urlopen error " ++ reason ++ lit ">"]
    | _ => console w
    end.
Proof.
  rewrite download_svg_run.
  destruct (reply_to _ _) as [status body|[|reason|path]];
    try (repeat split; reflexivity).
  destruct (status =? 200); [|repeat split; reflexivity].
  destruct (has_dir w); repeat split; reflexivity.
Qed.

Lemma download_from_any fuel :
  forall (start : N) (w : world),
    has_dir w = true ->
    exists n,
      (n <= fuel)%nat /\
      requests (fst (download_from fuel start w))
      = requests w ++ List.map BASE_URL (ids_from start n) /\
      (forall name,
         name ∉ List.map output_name (ids_from start n) ->
         files (fst (download_from fuel start w)) !! name = files w !! name)
      /\
      (forall name,
         is_Some (files w !! name) ->
         is_Some (files (fst (download_from fuel start w)) !! name)) /\
      match snd (download_from fuel start w) with
      | Returned (Some _) => (1 <= n)%nat
      | Returned None => n = fuel
      | Raised e =>
          refused_last (fst (download_from fuel start w)) e /\
          failed_reply (Refuses e) = false
      end.
Proof.
  induction fuel as [|fuel IH]; intros start w Hdir.
  - exists 0%nat. cbn. rewrite app_nil_r. repeat split; auto.
  - rewrite download_from_S, download_svg_run, Hdir.
    assert (Hstop : forall w1 line,
              requests w1 = requests w ++ [BASE_URL start] ->
              files w1 = files w ->
              exists n,
                (n <= S fuel)%nat /\
                requests (log_line line w1)
                = requests w ++ List.map BASE_URL (ids_from start n) /\
                (forall name,
                   name ∉ List.map output_name (ids_from start n) ->
                   files (log_line line w1) !! name = files w !! name) /\
                (forall name,
                   is_Some (files w !! name) ->
                   is_Some (files (log_line line w1) !! name)) /\
                (1 <= n)%nat).
    { intros w1 line Hr Hf. exists 1%nat.
      cbn [log_line requests files]. rewrite Hr, Hf.
      unfold ids_from. cbn [seq List.map]. rewrite N.add_0_r.
      split; [lia|]. split; [reflexivity|]. split; [reflexivity|].
      split; [auto|lia]. }
    destruct (reply_to (length (requests w)) (BASE_URL start))
      as [status body|[|reason|path]] eqn:Hreply.
    + destruct (status =? 200) eqn:Es.
      * set (w1 := log_line _ _).
        destruct (IH (start + 1) w1 Hdir)
          as (n & Hn & Hr & Hfr & Hmono & Ho).
        exists (S n). split; [lia|]. rewrite ids_from_succ. cbn [List.map].
        split; [|split; [|split]].
        -- rewrite Hr. subst w1. cbn [requests log_line set_files log_request].
           rewrite <- app_assoc. reflexivity.
        -- intros name Hname. apply not_elem_of_cons in Hname as [Hne Hname].
           rewrite (Hfr name Hname). subst w1.
           cbn [files log_line set_files log_request].
           apply lookup_insert_ne. congruence.
        -- intros name Hname. apply Hmono. subst w1.
           cbn [files log_line set_files log_request].
           destruct (decide (output_name start = name)) as [<-|Hne].
           ++ rewrite lookup_insert_eq. eauto.
           ++ rewrite lookup_insert_ne by exact Hne. exact Hname.
        -- destruct (snd (download_from fuel (start + 1) w1)) as [[?|]|e];
             [lia|lia|exact Ho].
      * cbn [fst snd]. apply Hstop; reflexivity.
    + cbn [fst snd]. apply Hstop; reflexivity.
    + cbn [fst snd]. apply Hstop; reflexivity.
    + exists 1%nat. cbn [fst snd]. unfold ids_from. cbn [seq List.map].
      rewrite N.add_0_r. split; [lia|]. split; [reflexivity|].
      split; [reflexivity|]. split; [auto|]. split; [|reflexivity].
      exists (requests w), (BASE_URL start). split; [reflexivity|exact Hreply].
Qed.

(** X14.  On any network, the fetcher asks for the ids 201, 202, ... in
    order and without a gap, one request each.  It changes no file but the
    [<id>.svg] of a requested id and removes none.  When it returns, the
    status is 0 and at least one request went out. *)
Theorem fetcher_any_network (fuel : nat) (w : world) :
  exists n,
    (n <= fuel)%nat /\
    requests (fst (main fuel w))
    = requests w ++ List.map BASE_URL (ids_from 201 n) /\
    (forall name,
       name ∉ List.map output_name (ids_from 201 n) ->
       files (fst (main fuel w)) !! name = files w !! name) /\
    (forall name,
       is_Some (files w !! name) ->
       is_Some (files (fst (main fuel w)) !! name)) /\
    match snd (main fuel w) with
    | Returned (Some status) => status = 0 /\ (1 <= n)%nat
    | Returned None => n = fuel
    | Raised _ => True
    end.
Proof.
  set (w0 := World true (files w) (requests w) (console w) (slept w)).
  destruct (download_from_any fuel 201 w0 eq_refl)
    as (n & Hn & Hr & Hfr & Hmono & Ho).
  assert (E : main fuel w
              = match download_from fuel 201 w0 with
                | (w', Returned (Some _)) => (w', Returned (Some 0))
                | (w', Returned None) => (w', Returned None)
                | (w', Raised e) => (w', Raised e)
                end).
  { unfold main, makedirs, mbind, M_bind, mret, M_ret. fold w0.
    destruct (download_from fuel 201 w0) as [w' [[?|]|e]]; reflexivity. }
  exists n. rewrite E.
  destruct (download_from fuel 201 w0) as [w' [[?|]|e]];
    cbn [fst snd] in *; repeat split; auto; tauto.
Qed.

End FetcherAny.

Lemma download_svg_writes_body_witness :
  let body := lit "<svg/>" ++ [0] in
  @reply_to cdn_five (length (requests fresh_dir_world))
    (Download.BASE_URL 201) = Responds 200 body /\
  has_dir fresh_dir_world = true /\
  snd (@Download.download_svg cdn_five 201 fresh_dir_world) = Returned true /\
  files (fst (@Download.download_svg cdn_five 201 fresh_dir_world))
    !! Download.output_name 201 = Some body.
Proof.
  intros body.
  assert (Hreply : @reply_to cdn_five (length (requests fresh_dir_world))
                     (Download.BASE_URL 201) = Responds 200 body)
    by reflexivity.
  split; [exact Hreply|]. split; [reflexivity|].
  destruct (proj1 (@download_svg_writes_body cdn_five fresh_dir_world 201
                     body Hreply) eq_refl) as (Hret & Hfile & _).
  split; [exact Hret|exact Hfile].
Defined.

(** ** More on names and candidates *)

Section Names.
Context `{Runtime}.

Lemma rstrip_nil_iff p s : rstrip p s = [] <-> forallb p s = true.
Proof.
  induction s as [|a s IH]; cbn [rstrip forallb]; [tauto|].
  destruct (rstrip p s) eqn:E.
  - destruct (p a); cbn [andb].
    + split; [intros _; apply IH; reflexivity|reflexivity].
    + split; discriminate.
  - split; [discriminate|].
    intros [_ Hs]%andb_prop. apply IH in Hs. discriminate.
Qed.

Lemma lstrip_forallb p s : forallb p (lstrip p s) = forallb p s.
Proof.
  induction s as [|a s IH]; cbn [lstrip forallb]; [reflexivity|].
  destruct (p a) eqn:E; [exact IH|]. cbn [forallb]. rewrite E. reflexivity.
Qed.

Lemma strip_nil_iff p s : strip p s = [] <-> forallb p s = true.
Proof. unfold strip. rewrite rstrip_nil_iff, lstrip_forallb. reflexivity. Qed.

Lemma sub_nonslug_underscores b s :
  forallb is_underscore
    (re_sub_runs (fun c => negb (is_slug_char c)) [underscore] b s)
  = negb (existsb is_slug_char s).
Proof.
  revert b. induction s as [|c s IH]; intros b;
    cbn [re_sub_runs existsb]; [reflexivity|].
  destruct (is_slug_char c) eqn:Ec; cbn [negb orb].
  - cbn [forallb]. rewrite (slug_char_not_underscore c Ec). reflexivity.
  - destruct b; [apply IH|]. cbn [app forallb]. rewrite IH. reflexivity.
Qed.

(** X15.  The normalised name is empty exactly when the decomposed,
    ASCII-filtered and lowercased text has no character of [[a-z0-9]]. *)
Theorem normalize_name_empty_iff (x : str) :
  normalize_name x = [] <->
  existsb is_slug_char (str_lower (List.filter is_ascii (nfkd x))) = false.
Proof.
  unfold normalize_name, re_sub_plus.
  set (t := re_sub_runs (fun c => negb (is_slug_char c)) [underscore] false _).
  rewrite (sub_underscore_tidy false t) by apply sub_nonslug_tidy.
  rewrite strip_nil_iff. subst t. rewrite sub_nonslug_underscores.
  apply negb_true_iff.
Qed.

(** The acceptor is complete for the regular expression. *)
Lemma star_slug_chars w :
  matches (Star (Class_ is_slug_char)) w -> forallb is_slug_char w = true.
Proof.
  remember (Star (Class_ is_slug_char)) as re eqn:Er.
  induction 1 as [| | |re s1 s2 Hhead _ _ IH]; try discriminate Er;
    [reflexivity|].
  injection Er as ->. inversion Hhead; subst. cbn [app forallb].
  apply andb_true_intro. split; [assumption|]. apply IH. reflexivity.
Qed.

Lemma plus_slug_chars w :
  matches (Plus (Class_ is_slug_char)) w ->
  w <> [] /\ forallb is_slug_char w = true.
Proof.
  unfold Plus. intros Hm.
  inversion Hm as [| r1 r2 s1 s2 Hhead Htail | |]; subst.
  inversion Hhead; subst. split; [discriminate|]. cbn [app forallb].
  apply andb_true_intro. split; [assumption|]. apply star_slug_chars, Htail.
Qed.

Lemma slug_accept_app b w rest :
  w <> [] -> forallb is_slug_char w = true ->
  slug_accept b (w ++ rest) = slug_accept false rest.
Proof.
  revert b. induction w as [|c w IH]; intros b Hne Hw; [contradiction|].
  cbn [forallb] in Hw. apply andb_prop in Hw as [Hc Hw].
  cbn [app slug_accept]. rewrite (slug_char_not_underscore c Hc), Hc.
  cbn [andb]. destruct w as [|d w]; [reflexivity|].
  apply IH; [discriminate|exact Hw].
Qed.

Lemma star_groups_accept r :
  matches (Star (Seq (Class_ is_underscore) (Plus (Class_ is_slug_char)))) r ->
  slug_accept false r = true.
Proof.
  remember (Star (Seq (Class_ is_underscore) (Plus (Class_ is_slug_char))))
    as re eqn:Er.
  induction 1 as [| | |re s1 s2 H1 _ _ IH]; try discriminate Er;
    [reflexivity|].
  injection Er as ->.
  inversion H1 as [| r1 r2 u w Hu Hw | |]; subst.
  inversion Hu as [p c Hc| | |]; subst.
  apply plus_slug_chars in Hw as [Hne Hw].
  rewrite <- app_assoc. cbn [app slug_accept]. rewrite Hc. cbn [negb andb].
  rewrite (slug_accept_app true w s2 Hne Hw).
  apply IH. reflexivity.
Qed.

Lemma is_slug_iff s : is_slug s = true <-> matches slug_regex s.
Proof.
  split; [apply slug_accept_matches|].
  unfold slug_regex, is_slug. intros Hm.
  inversion Hm as [| r1 r2 w r Hw Hr | |]; subst.
  apply plus_slug_chars in Hw as [Hne Hw].
  rewrite (slug_accept_app true w r Hne Hw). apply star_groups_accept, Hr.
Qed.

(** X16.  The fixed points of the normaliser are the empty string and the
    strings matching [[a-z0-9]+(_[a-z0-9]+)*], given that NFKD and
    lowercasing behave on ASCII text as they do in Python. *)
Theorem normalize_name_fixed_points (y : str) :
  nfkd_fixes_ascii -> lower_on_ascii ->
  normalize_name y = y <-> y = [] \/ matches slug_regex y.
Proof.
  intros Hn Hl. rewrite <- is_slug_iff. split.
  - intros <-. apply normalize_name_shape.
  - apply normalize_name_fixes_slug; assumption.
Qed.

Lemma lstrip_head p c s t : lstrip p s = c :: t -> p c = false.
Proof.
  induction s as [|a s IH]; cbn [lstrip]; [discriminate|].
  destruct (p a) eqn:E; [exact IH|]. intros [= -> _]. exact E.
Qed.

Lemma rstrip_head p s c t :
  rstrip p s = c :: t -> exists s', s = c :: s'.
Proof.
  destruct s as [|a s]; cbn [rstrip]; [discriminate|].
  destruct (rstrip p s); [destruct (p a)|]; intros [= <- _]; eauto.
Qed.

Lemma rstrip_last p s t c : rstrip p s = t ++ [c] -> p c = false.
Proof.
  revert t. induction s as [|a s IH]; cbn [rstrip]; intros t.
  - destruct t; discriminate.
  - destruct (rstrip p s) as [|b u] eqn:E.
    + destruct (p a) eqn:Ea; [destruct t; discriminate|].
      destruct t as [|x [|y t]]; cbn [app]; try discriminate.
      intros [= <-]. exact Ea.
    + destruct t as [|x t]; cbn [app]; [discriminate|].
      intros [= _ Hu]. apply (IH t). exact Hu.
Qed.

Lemma strip_trimmed p s :
  (forall c rest, strip p s = c :: rest -> p c = false) /\
  (forall front c, strip p s = front ++ [c] -> p c = false).
Proof.
  unfold strip. split.
  - intros c rest E. destruct (rstrip_head _ _ _ _ E) as (s' & E').
    apply (lstrip_head p c s s'), E'.
  - intros front c E. apply (rstrip_last p _ front c E).
Qed.

(** X17.  The candidate of a title, with the class of separators the
    source file has: the text before the first of hyphen, vertical bar,
    colon, U+00E2, U+20AC, U+201D that stands between two whitespace
    characters, or the whole title when there is none, in both cases
    without leading and trailing whitespace.  One of the two cases always
    applies, and the em-dash U+2014 is not in the class. *)
Theorem candidate_of_exact (title : str) :
  (forall pre, first_sep_at is_separator pre title ->
     candidate_of title = strip is_space pre) /\
  ((forall pre, ~ sep_at is_separator pre title) ->
     candidate_of title = strip is_space title) /\
  ((exists pre, first_sep_at is_separator pre title) \/
   (forall pre, ~ sep_at is_separator pre title)) /\
  (forall c, is_separator c = true <->
     c ∈ [45; 124; 58; 226; 8364; 8221]) /\
  is_separator 8212 = false /\
  (forall c rest, candidate_of title = c :: rest -> is_space c = false) /\
  (forall front c, candidate_of title = front ++ [c] -> is_space c = false).
Proof.
  unfold candidate_of. split; [|split; [|split; [|split; [|split]]]].
  - intros pre Hpre. f_equal. apply re_split_head_first, Hpre.
  - intros Hnone. f_equal. apply re_split_head_none, Hnone.
  - destruct (has_sep is_separator title) eqn:E.
    + left. eexists. apply re_split_head_is_first, E.
    + right. intros pre Hpre. apply has_sep_complete in Hpre. congruence.
  - intros c. unfold is_separator.
    rewrite !orb_true_iff, !N.eqb_eq, !elem_of_cons, elem_of_nil. tauto.
  - reflexivity.
  - apply strip_trimmed.
Qed.

Lemma occurs_in_trans a b s : occurs_in a b -> occurs_in b s -> occurs_in a s.
Proof.
  intros (p1 & q1 & ->) (p2 & q2 & ->).
  exists (p2 ++ p1), (q1 ++ q2). rewrite <- !app_assoc. reflexivity.
Qed.

(** X18.  The stop phrases [connector icons] and [connector-icons] never
    decide anything: a text that contains one of them contains
    [connector], so the filter with the other seven phrases rejects the
    same candidates. *)
Theorem stop_phrases_core (lower : str) :
  existsb (fun phrase => str_in phrase lower) STOP_PHRASES
  = existsb (fun phrase => str_in phrase lower) CORE_STOP_PHRASES.
Proof.
  assert (Hsub : forall long,
            occurs_in (lit "connector") long ->
            str_in long lower = true ->
            str_in (lit "connector") lower = true).
  { intros long Hin Hl. apply str_in_iff. apply str_in_iff in Hl.
    apply (occurs_in_trans _ long); assumption. }
  pose proof (Hsub (lit "connector icons")) as H1.
  pose proof (Hsub (lit "connector-icons")) as H2.
  unfold STOP_PHRASES, CORE_STOP_PHRASES. cbn [existsb].
  destruct (str_in (lit "connector") lower) eqn:Ec.
  - rewrite !orb_true_r. reflexivity.
  - destruct (str_in (lit "connector icons") lower) eqn:E1.
    { assert (true = false) as Habs; [|discriminate Habs].
      symmetry. rewrite <- (H1 ltac:(exists [], (lit " icons"); reflexivity)
                              eq_refl). reflexivity. }
    destruct (str_in (lit "connector-icons") lower) eqn:E2.
    { assert (true = false) as Habs; [|discriminate Habs].
      symmetry. rewrite <- (H2 ltac:(exists [], (lit "-icons"); reflexivity)
                              eq_refl). reflexivity. }
    reflexivity.
Qed.

End Names.

Lemma normalize_name_fixed_points_witness :
  @nfkd_fixes_ascii sample_runtime /\ @lower_on_ascii sample_runtime /\
  (@normalize_name sample_runtime (lit "banco_itau") = lit "banco_itau" <->
   lit "banco_itau" = [] \/ matches slug_regex (lit "banco_itau")).
Proof.
  split; [exact sample_nfkd_fixes_ascii|].
  split; [exact sample_lower_on_ascii|].
  exact (@normalize_name_fixed_points sample_runtime (lit "banco_itau")
           sample_nfkd_fixes_ascii sample_lower_on_ascii).
Defined.

(** ** The orchestrator against the selector and the normaliser *)

Section OrchestratorSpec.
Context `{Runtime} `{Network}.
Import Rename.

Lemma pick_name_truthy titles candidate :
  pick_name_from_titles titles = Some candidate -> truthy candidate = true.
Proof.
  induction titles as [|title titles IH]; [discriminate|].
  rewrite pick_name_from_titles_cons.
  destruct (_ || _ || _) eqn:E; [exact IH|].
  intros [= <-]. apply orb_false_iff in E as [_ E].
  apply orb_false_iff in E as [E _]. apply Nat.ltb_ge in E.
  unfold truthy. destruct (candidate_of title); [simpl in E; lia|reflexivity].
Qed.

Lemma truthy_iff s : truthy s = true <-> s <> [].
Proof.
  unfold truthy. destruct s; cbn; split; try congruence; discriminate.
Qed.

Lemma slug_of_titles_gives titles slug :
  slug_of_titles titles = Some slug <-> gives_slug titles slug.
Proof.
  unfold slug_of_titles, gives_slug.
  destruct (pick_name_from_titles titles) as [candidate|] eqn:Ep.
  - rewrite (pick_name_truthy _ _ Ep).
    destruct (truthy (normalize_name candidate)) eqn:Et.
    + apply truthy_iff in Et. split.
      * intros [= <-]. eauto.
      * intros (c & [= <-] & <- & _). reflexivity.
    + split; [discriminate|]. intros (c & [= <-] & <- & Hne).
      apply truthy_iff in Hne. congruence.
  - split; [discriminate|]. intros (c & [=] & _).
Qed.

Lemma slug_of_titles_gives_none titles :
  slug_of_titles titles = None <-> gives_no_slug titles.
Proof.
  unfold slug_of_titles, gives_no_slug.
  destruct (pick_name_from_titles titles) as [candidate|] eqn:Ep.
  - rewrite (pick_name_truthy _ _ Ep).
    destruct (truthy (normalize_name candidate)) eqn:Et.
    + apply truthy_iff in Et. split; [discriminate|].
      intros [[=]|(c & [= <-] & E)]. contradiction.
    + split; [|reflexivity]. intros _. right. exists candidate.
      split; [reflexivity|]. unfold truthy in Et.
      destruct (normalize_name candidate); [reflexivity|discriminate].
  - split; [auto|reflexivity].
Qed.

Lemma query_result_titles sent query :
  query_result sent query
  = match query_titles sent query with
    | Returned titles => Returned (slug_of_titles titles)
    | Raised e => Raised e
    end.
Proof.
  unfold query_result, query_titles. destruct (reply_to _ _); reflexivity.
Qed.

Lemma query_result_none sent query :
  query_result sent query = Returned None <->
  exists titles,
    query_titles sent query = Returned titles /\ gives_no_slug titles.
Proof.
  rewrite query_result_titles.
  destruct (query_titles sent query) as [titles|e]; split.
  - intros [= E]. exists titles. split; [reflexivity|].
    apply slug_of_titles_gives_none, E.
  - intros (ts & [= <-] & Hn). f_equal. apply slug_of_titles_gives_none, Hn.
  - discriminate.
  - intros (ts & [=] & _).
Qed.

Lemma query_result_slug sent query slug :
  query_result sent query = Returned (Some slug) <->
  exists titles,
    query_titles sent query = Returned titles /\ gives_slug titles slug.
Proof.
  rewrite query_result_titles.
  destruct (query_titles sent query) as [titles|e]; split.
  - intros [= E]. exists titles. split; [reflexivity|].
    apply slug_of_titles_gives, E.
  - intros (ts & [= <-] & Hn). f_equal. apply slug_of_titles_gives, Hn.
  - discriminate.
  - intros (ts & [=] & _).
Qed.

Lemma query_result_raised sent query e :
  query_result sent query = Raised e <-> query_titles sent query = Raised e.
Proof.
  rewrite query_result_titles.
  destruct (query_titles sent query); split; congruence.
Qed.

Lemma all_without_slug_iff sent qs :
  all_without_slug sent qs <->
  forall i q, qs !! i = Some q -> query_result (sent + i) q = Returned None.
Proof.
  unfold all_without_slug. split; intros Hall i q Hq;
    apply query_result_none, (Hall i q Hq).
Qed.

Lemma tried_identified queries w w' result :
  tried_in_order queries w w' result ->
  identified_in_order queries w w' result.
Proof.
  unfold tried_in_order, identified_in_order.
  intros (Hf & Hd & Hc & Hr). do 3 (split; [assumption|]).
  destruct result as [[slug|]|e].
  - destruct Hr as (earlier & q & later & Eq & Hreq & Hs & Hnone & Hq & _).
    apply query_result_slug in Hq as (titles & Ht & Hg).
    exists earlier, q, later, titles.
    do 3 (split; [assumption|]). split; [|split; assumption].
    apply all_without_slug_iff, Hnone.
  - destruct Hr as (Hreq & Hs & Hnone).
    do 2 (split; [assumption|]). apply all_without_slug_iff, Hnone.
  - destruct Hr as (earlier & q & later & Eq & Hreq & Hs & Hnone & Hq & _).
    exists earlier, q, later.
    do 3 (split; [assumption|]). split; [|apply query_result_raised, Hq].
    apply all_without_slug_iff, Hnone.
Qed.

(** C6.  [identify_institution] builds the query with the identifier and,
    only when there is a hint, the query with the first hint, and no
    other.  It sends them in this order.  As soon as the titles of a query
    have a winner in the candidate selector whose normal form is not
    empty, it returns that normal form, and no later query goes out.  It
    returns nothing only when every query went out and the titles of each
    had no winner, or a winner whose normal form is empty.  A query whose
    transport fails ends the run with that exception. *)
Theorem identify_institution_spec (icon_id : str) (hints : list str)
    (w : world) :
  queries_for icon_id hints
  = (lit "pluggy connector " ++ icon_id ++ lit " svg bank")
    :: match hints with
       | [] => []
       | first_hint :: _ => [first_hint ++ lit " logo"]
       end
  /\ identified_in_order (queries_for icon_id hints) w
       (fst (identify_institution icon_id hints w))
       (snd (identify_institution icon_id hints w)).
Proof.
  split; [reflexivity|]. apply tried_identified, try_queries_spec.
Qed.




End OrchestratorSpec.

